(** * WebSocket server plumbing (server/src/wsServer.ts)

    A shallow embedding of the connection registry, the three routing
    helpers and the event dispatcher of [WSServer], together with the
    message types of server/src/types.ts.

    Conventions.
    - A [WebSocket] object is referred to by its identity, a [sock].  Its
      [readyState] and the data written to it live in the server record,
      next to the fields of the class.
    - [clients] is a JavaScript [Map]: an association list in insertion
      order with unique keys.
    - Every observable action (a [ws.send], a [JSON.stringify], an
      invocation of an AppLogic callback, a [close()] on a transport) is
      appended to [trace].  [console] output is not modelled.
    - Exceptions are modelled by the [Completion] of a computation. *)

From Stdlib Require Import List String Ascii ZArith Lia Bool Arith.
From Stdlib Require Import DecimalString DecimalZ.
Import ListNotations.
Open Scope string_scope.

Set Implicit Arguments.

(* ================================================================== *)
(** ** JavaScript strings and number rendering *)

Module JS.

(** [s.substring(start, end)]: the two indices are swapped when
    [start > end] and clamped to the length of [s]. *)
Definition substring (start end_ : nat) (s : string) : string :=
  let lo := Nat.min start end_ in
  let hi := Nat.max start end_ in
  String.substring lo (hi - lo) s.

(** Whether the character [c] occurs in [s]. *)
Fixpoint has_char (c : ascii) (s : string) : bool :=
  match s with
  | EmptyString => false
  | String c' s' => Ascii.eqb c' c || has_char c s'
  end.

(** The template-literal rendering of an integral number such as
    [Date.now()]: decimal digits, with a leading minus sign when
    negative. *)
Definition number_to_string (n : Z) : string :=
  NilZero.string_of_int (Z.to_int n).

End JS.

(* ================================================================== *)
(** ** Identity generator *)

(** [generateClientId()].  The two impure reads are arguments: [now] is
    the value of [Date.now()] and [rnd36] is the string
    [Math.random().toString(36)]. *)
Definition generateClientId (now : Z) (rnd36 : string) : string :=
  "client_" ++ JS.number_to_string now ++ "_" ++ JS.substring 2 11 rnd36.

(* ================================================================== *)
(** ** Message types (server/src/types.ts) *)

Record ChatMessage := {
  username : string;
  text : string;
  timestamp : Z;
  clientId : string
}.

(** [ClientMessage] *)
Inductive ClientMessage :=
| setUsername (username : string)
| sendMessage (text : string).

(** [ServerMessage]: a union discriminated by its [type] field. *)
Inductive ServerMessage :=
| welcome (clientId : string)
| userJoined (username : string)
| userLeft (username : string)
| chatMessage (payload : ChatMessage)
| systemMessage (text : string)
| error (message : string).

(** The [type] field of a server message. *)
Definition message_type (m : ServerMessage) : string :=
  match m with
  | welcome _ => "welcome"
  | userJoined _ => "userJoined"
  | userLeft _ => "userLeft"
  | chatMessage _ => "chatMessage"
  | systemMessage _ => "systemMessage"
  | error _ => "error"
  end.

(** [MessageHelpers]: what a callback may ask of the server.  The three
    helpers return [void], so a callback observes nothing of them and
    its use of them is the list of calls it makes, in order. *)
Inductive HelperCall :=
| BroadcastAll (message : ServerMessage)
| SendTo (clientId : string) (message : ServerMessage)
| BroadcastExcept (excludeClientId : string) (message : ServerMessage).

(** What one run of an AppLogic callback does: it leaves the
    application state as [next_state], makes [helper_calls], and either
    returns or throws. *)
Record Outcome (State : Type) := {
  next_state : State;
  helper_calls : list HelperCall;
  throws : bool
}.

(** [AppLogic<State>].  [Message] is the type of the values
    [JSON.parse] returns: the cast to [ClientMessage] in the dispatcher
    is unchecked, so [handleMessage] receives whatever was parsed. *)
Record AppLogic (State Message : Type) := {
  createInitialState : State;
  handleConnect : State -> string -> Outcome State;
  handleDisconnect : State -> string -> Outcome State;
  handleMessage : State -> string -> Message -> Outcome State
}.

(* ================================================================== *)
(** ** Transport and host (the [ws] package and the JavaScript runtime) *)

(** Identity of a [WebSocket] object. *)
Definition sock := nat.

(** [WebSocket.CONNECTING], [OPEN], [CLOSING], [CLOSED]. *)
Inductive ReadyState := CONNECTING | OPEN | CLOSING | CLOSED.

Definition ReadyState_eqb (a b : ReadyState) : bool :=
  match a, b with
  | CONNECTING, CONNECTING | OPEN, OPEN | CLOSING, CLOSING | CLOSED, CLOSED => true
  | _, _ => false
  end.

(** What the server takes from its host and is not part of the
    repository.
    - [JSON_parse] is [None] when [JSON.parse] throws.
    - [send_throws rs] tells whether [ws.send] throws on a socket in the
      state [rs], for [rs] other than [OPEN] (versions of [ws] differ);
      on an open socket [ws.send] writes the data.
    - [close_transition] is the effect of [ws.close()] on the state of a
      socket. *)
Class Host := {
  JSValue : Type;
  JSON_parse : string -> option JSValue;
  JSON_stringify : ServerMessage -> string;
  send_throws : ReadyState -> bool;
  close_transition : ReadyState -> ReadyState
}.

(* ================================================================== *)
(** ** The JavaScript [Map] of the registry *)

Module Map.

Definition t := list (string * sock).

(** [m.get(k)] *)
Fixpoint get (k : string) (m : t) : option sock :=
  match m with
  | [] => None
  | (k', v) :: m' => if String.eqb k' k then Some v else get k m'
  end.

(** [m.set(k, v)]: a present key keeps its place and takes the new
    value, a new key goes last. *)
Fixpoint set (k : string) (v : sock) (m : t) : t :=
  match m with
  | [] => [(k, v)]
  | (k', v') :: m' =>
      if String.eqb k' k then (k, v) :: m' else (k', v') :: set k v m'
  end.

(** [m.delete(k)]: the entry of [k] goes, the others keep their order. *)
Definition delete (k : string) (m : t) : t :=
  filter (fun entry => negb (String.eqb (fst entry) k)) m.

(** [m.size] *)
Definition size (m : t) : nat := List.length m.

Definition keys (m : t) : list string := map fst m.

End Map.

(* ================================================================== *)
(** ** Server state, observations and computations *)

(** How a computation ends. *)
Inductive Completion (A : Type) :=
| Normal (a : A)
| Throw.
Arguments Throw {A}.

Section Plumbing.

Context {host : Host}.
Context {State : Type}.

(** The AppLogic callbacks the dispatcher invokes. *)
Inductive HandlerCall :=
| onConnect (clientId : string)
| onDisconnect (clientId : string)
| onMessage (clientId : string) (message : JSValue).

Inductive Effect :=
| Stringify (message : ServerMessage)
| Send (ws : sock) (data : string)
| Invoke (call : HandlerCall)
| CloseSocket (ws : sock)
| CloseListener.

(** The fields [clients] and [state] of the class; [wss] is whether
    the listener is still open; [readyState] is the state of every
    transport; [trace] is what has been observed so far, oldest
    first. *)
Record WSServer := {
  clients : Map.t;
  state : State;
  wss : bool;
  readyState : sock -> ReadyState;
  trace : list Effect
}.

Definition with_clients (f : Map.t -> Map.t) (s : WSServer) : WSServer :=
  {| clients := f (clients s); state := state s; wss := wss s;
     readyState := readyState s; trace := trace s |}.

Definition with_state (st : State) (s : WSServer) : WSServer :=
  {| clients := clients s; state := st; wss := wss s;
     readyState := readyState s; trace := trace s |}.

Definition with_wss (b : bool) (s : WSServer) : WSServer :=
  {| clients := clients s; state := state s; wss := b;
     readyState := readyState s; trace := trace s |}.

Definition with_readyState (ws : sock) (rs : ReadyState) (s : WSServer) : WSServer :=
  {| clients := clients s; state := state s; wss := wss s;
     readyState := fun ws' => if Nat.eqb ws' ws then rs else readyState s ws';
     trace := trace s |}.

Definition with_effect (e : Effect) (s : WSServer) : WSServer :=
  {| clients := clients s; state := state s; wss := wss s;
     readyState := readyState s; trace := trace s ++ [e] |}.

(** A computation over the server: state passing with exceptions. *)
Definition M (A : Type) : Type := WSServer -> Completion A * WSServer.

Definition ret {A} (a : A) : M A := fun s => (Normal a, s).

Definition bind {A B} (m : M A) (f : A -> M B) : M B :=
  fun s =>
    match m s with
    | (Normal a, s') => f a s'
    | (Throw, s') => (Throw, s')
    end.

Definition throw {A} : M A := fun s => (Throw, s).

(** [try { m } catch { h }] *)
Definition try_catch {A} (m : M A) (h : M A) : M A :=
  fun s =>
    match m s with
    | (Normal a, s') => (Normal a, s')
    | (Throw, s') => h s'
    end.

Definition get_server : M WSServer := fun s => (Normal s, s).

Definition modify (f : WSServer -> WSServer) : M unit :=
  fun s => (Normal tt, f s).

Definition emit (e : Effect) : M unit := modify (with_effect e).

End Plumbing.

Arguments WSServer {host} State.
Arguments M {host} State A.

Declare Scope server_scope.
Delimit Scope server_scope with server.
Notation "x <- m ;; k" := (bind m (fun x => k))
  (at level 61, m at next level, right associativity) : server_scope.
Notation "m ;; k" := (bind m (fun _ => k))
  (at level 61, right associativity) : server_scope.

(* ================================================================== *)
(** ** The WSServer class *)

Section Server.

Context {host : Host}.
Context {State : Type}.
Variable appLogic : AppLogic State JSValue.

Local Open Scope server_scope.

(** *** Host operations *)

(** [ws.readyState] *)
Definition ws_readyState (ws : sock) : M State ReadyState :=
  fun s => (Normal (readyState s ws), s).

(** [ws.send(data)] *)
Definition ws_send (ws : sock) (data : string) : M State unit :=
  rs <- ws_readyState ws ;;
  match rs with
  | OPEN => emit (Send ws data)
  | _ => if send_throws rs then throw else ret tt
  end.

(** [ws.close()]: it returns; the close event of the socket is a later
    event. *)
Definition ws_close (ws : sock) : M State unit :=
  rs <- ws_readyState ws ;;
  modify (with_readyState ws (close_transition rs)) ;;
  emit (CloseSocket ws).

(** [this.wss.close()] *)
Definition wss_close : M State unit :=
  modify (with_wss false) ;;
  emit CloseListener.

(** [JSON.stringify(message)] *)
Definition stringify (message : ServerMessage) : M State string :=
  emit (Stringify message) ;;
  ret (JSON_stringify message).

(** [JSON.parse(data.toString())] *)
Definition parse (data : string) : M State JSValue :=
  match JSON_parse data with
  | Some v => ret v
  | None => throw
  end.

(** [this.clients.forEach((ws, clientId) => ...)]: the entries in
    insertion order; an exception in a visit ends the iteration. *)
Fixpoint visit_all (visit : sock -> string -> M State unit) (entries : Map.t)
  : M State unit :=
  match entries with
  | [] => ret tt
  | (clientId, ws) :: rest => visit ws clientId ;; visit_all visit rest
  end.

Definition clients_forEach (visit : sock -> string -> M State unit) : M State unit :=
  s <- get_server ;;
  visit_all visit (clients s).

(** *** Routing helpers *)

Definition broadcastAll (message : ServerMessage) : M State unit :=
  data <- stringify message ;;
  clients_forEach (fun ws clientId =>
    rs <- ws_readyState ws ;;
    if ReadyState_eqb rs OPEN then ws_send ws data
    else ret tt).

Definition sendTo (clientId : string) (message : ServerMessage) : M State unit :=
  s <- get_server ;;
  match Map.get clientId (clients s) with
  | None => ret tt
  | Some ws =>
      rs <- ws_readyState ws ;;
      if ReadyState_eqb rs OPEN then
        data <- stringify message ;;
        ws_send ws data
      else ret tt
  end.

Definition broadcastExcept (excludeClientId : string) (message : ServerMessage)
  : M State unit :=
  data <- stringify message ;;
  clients_forEach (fun ws clientId =>
    if negb (String.eqb clientId excludeClientId) then
      rs <- ws_readyState ws ;;
      if ReadyState_eqb rs OPEN then ws_send ws data
      else ret tt
    else ret tt).

(** [createHelpers()]: the three closures over [this]. *)
Definition createHelpers (call : HelperCall) : M State unit :=
  match call with
  | BroadcastAll message => broadcastAll message
  | SendTo clientId message => sendTo clientId message
  | BroadcastExcept excludeClientId message => broadcastExcept excludeClientId message
  end.

(** *** Invoking the application logic *)

Fixpoint perform (helpers : HelperCall -> M State unit) (calls : list HelperCall)
  : M State unit :=
  match calls with
  | [] => ret tt
  | call :: rest => helpers call ;; perform helpers rest
  end.

(** [this.appLogic.handleX(this.state, ..., this.createHelpers())] *)
Definition invoke (call : HandlerCall) (callback : State -> Outcome State)
    (helpers : HelperCall -> M State unit) : M State unit :=
  s <- get_server ;;
  let outcome := callback (state s) in
  emit (Invoke call) ;;
  modify (with_state (next_state outcome)) ;;
  perform helpers (helper_calls outcome) ;;
  if throws outcome then throw else ret tt.

(** *** Listeners *)

(** The three listeners [setupClientHandlers(ws, clientId)] installs
    on [ws].  Their bodies refer to [clientId] only. *)
Record ClientHandlers := {
  on_message : string -> M State unit;
  on_close : M State unit;
  on_error : M State unit
}.

Definition setupClientHandlers (ws : sock) (clientId : string) : ClientHandlers :=
  {| on_message := fun data =>
       try_catch
         (message <- parse data ;;
          invoke (onMessage clientId message)
                 (fun st => handleMessage appLogic st clientId message)
                 createHelpers)
         (sendTo clientId (error "Invalid message format"));
     on_close :=
       modify (with_clients (Map.delete clientId)) ;;
       invoke (onDisconnect clientId)
              (fun st => handleDisconnect appLogic st clientId)
              createHelpers;
     on_error := ret tt |}.

(** The two listeners [setupWebSocketServer()] installs on the
    listener [wss].  [on_connection] takes the accepted socket and the
    two reads of [generateClientId]; the listeners of
    [setupClientHandlers(ws, clientId)] are the ones the later events of
    [ws] reach. *)
Record ServerHandlers := {
  on_connection : sock -> Z -> string -> M State unit;
  on_server_error : M State unit
}.

Definition setupWebSocketServer : ServerHandlers :=
  {| on_connection := fun ws now rnd36 =>
       let clientId := generateClientId now rnd36 in
       modify (with_clients (Map.set clientId ws)) ;;
       invoke (onConnect clientId)
              (fun st => handleConnect appLogic st clientId)
              createHelpers;
     on_server_error := ret tt |}.

(** *** Public methods *)

(** [new WSServer(httpServer, appLogic)], given the state of the
    transports: no client, the initial application state, the listener
    open with the listeners of [setupWebSocketServer] on it. *)
Definition constructor (transports : sock -> ReadyState) : WSServer State :=
  {| clients := [];
     state := createInitialState appLogic;
     wss := true;
     readyState := transports;
     trace := [] |}.

Definition getClientCount (s : WSServer State) : nat := Map.size (clients s).

Definition close : M State unit :=
  clients_forEach (fun ws _ => ws_close ws) ;;
  wss_close.

(** *** Events *)

(** What the host delivers to the server.  [ev_connection] carries the
    clock and random reads of [generateClientId].  [ev_message],
    [ev_close] and [ev_error] are events of the socket [ws] reaching the
    listeners that [setupClientHandlers(ws, clientId)] installed on it.
    [ev_readyState] is a change of a transport's state made outside the
    server. *)
Inductive Event :=
| ev_connection (ws : sock) (now : Z) (rnd36 : string)
| ev_message (ws : sock) (clientId : string) (data : string)
| ev_close (ws : sock) (clientId : string)
| ev_error (ws : sock) (clientId : string)
| ev_server_error
| ev_readyState (ws : sock) (rs : ReadyState).

Definition dispatch (e : Event) : M State unit :=
  match e with
  | ev_connection ws now rnd36 => on_connection setupWebSocketServer ws now rnd36
  | ev_message ws clientId data => on_message (setupClientHandlers ws clientId) data
  | ev_close ws clientId => on_close (setupClientHandlers ws clientId)
  | ev_error ws clientId => on_error (setupClientHandlers ws clientId)
  | ev_server_error => on_server_error setupWebSocketServer
  | ev_readyState ws rs => modify (with_readyState ws rs)
  end.

(** Events are handled one at a time; an exception that leaves a
    listener is uncaught and ends the process. *)
Fixpoint run (events : list Event) : M State unit :=
  match events with
  | [] => ret tt
  | e :: rest => dispatch e ;; run rest
  end.

End Server.

(* ================================================================== *)
(** ** Observations on traces *)

Section Observations.

Context {host : Host}.
Context {State : Type}.

(** Several effects at once. *)
Definition with_effects (es : list Effect) (s : WSServer State) : WSServer State :=
  {| clients := clients s; state := state s; wss := wss s;
     readyState := readyState s; trace := trace s ++ es |}.

(** The effects made between the server [s] and a later server [s']. *)
Definition since (s s' : WSServer State) : list Effect :=
  skipn (List.length (trace s)) (trace s').

(** The data written to transports, in order. *)
Fixpoint writes (es : list Effect) : list (sock * string) :=
  match es with
  | [] => []
  | Send ws data :: es' => (ws, data) :: writes es'
  | _ :: es' => writes es'
  end.

(** The callbacks of the application logic that were invoked, in order. *)
Fixpoint invocations (es : list Effect) : list HandlerCall :=
  match es with
  | [] => []
  | Invoke call :: es' => call :: invocations es'
  | _ :: es' => invocations es'
  end.

(** The number of calls of [JSON.stringify]. *)
Fixpoint serializations (es : list Effect) : nat :=
  match es with
  | [] => 0
  | Stringify _ :: es' => S (serializations es')
  | _ :: es' => serializations es'
  end.

Definition is_onConnect (call : HandlerCall) : bool :=
  match call with onConnect _ => true | _ => false end.

Definition is_onDisconnect (call : HandlerCall) : bool :=
  match call with onDisconnect _ => true | _ => false end.

Definition is_onDisconnect_of (clientId : string) (call : HandlerCall) : bool :=
  match call with onDisconnect c => String.eqb c clientId | _ => false end.

(** The numbers of [handleConnect] and [handleDisconnect] invocations
    of a trace. *)
Definition connects (es : list Effect) : nat :=
  List.length (filter is_onConnect (invocations es)).

Definition disconnects (es : list Effect) : nat :=
  List.length (filter is_onDisconnect (invocations es)).

Definition disconnects_of (clientId : string) (es : list Effect) : nat :=
  List.length (filter (is_onDisconnect_of clientId) (invocations es)).

(** A registered entry whose transport is open. *)
Definition writable (s : WSServer State) (entry : string * sock) : bool :=
  ReadyState_eqb (readyState s (snd entry)) OPEN.

Definition not_excluded (excludeClientId : string) (entry : string * sock) : bool :=
  negb (String.eqb (fst entry) excludeClientId).

(** One write of [data] per entry. *)
Definition deliveries (data : string) (entries : Map.t) : list (sock * string) :=
  map (fun entry => (snd entry, data)) entries.

(** The registry that a list of events expects: every accepted
    connection gets an identifier that is not registered at that
    moment, and a close event reaches the listener of a registered
    identifier.  [registered] is the list of registered identifiers. *)
Fixpoint consistent (registered : list string) (events : list Event) : bool :=
  match events with
  | [] => true
  | ev_connection _ now rnd36 :: rest =>
      let clientId := generateClientId now rnd36 in
      negb (existsb (String.eqb clientId) registered)
      && consistent (registered ++ [clientId]) rest
  | ev_close _ clientId :: rest =>
      existsb (String.eqb clientId) registered
      && consistent (filter (fun k => negb (String.eqb k clientId)) registered) rest
  | _ :: rest => consistent registered rest
  end.

Definition is_close (e : Event) : bool :=
  match e with
  | ev_close _ _ => true
  | _ => false
  end.

(** Close and error events of one connection. *)
Definition is_error_of (ws : sock) (clientId : string) (e : Event) : bool :=
  match e with
  | ev_error ws' c => Nat.eqb ws' ws && String.eqb c clientId
  | _ => false
  end.

(** Output of the routing helpers: serializations and writes. *)
Definition is_output (e : Effect) : bool :=
  match e with
  | Stringify _ | Send _ _ => true
  | _ => false
  end.

(** The callback an event invokes, if any. *)
Definition callback_of (e : Event) : list HandlerCall :=
  match e with
  | ev_connection _ now rnd36 => [onConnect (generateClientId now rnd36)]
  | ev_message _ clientId data =>
      match JSON_parse data with
      | Some message => [onMessage clientId message]
      | None => []
      end
  | ev_close _ clientId => [onDisconnect clientId]
  | _ => []
  end.

(** What an event does to the registry and to the transports. *)
Definition world_after (e : Event) (s : WSServer State) : WSServer State :=
  match e with
  | ev_connection ws now rnd36 =>
      with_clients (Map.set (generateClientId now rnd36) ws) s
  | ev_close _ clientId => with_clients (Map.delete clientId) s
  | ev_readyState ws rs => with_readyState ws rs s
  | _ => s
  end.

(** The registry invariant behind [getClientCount]. *)
Definition counted (s : WSServer State) : Prop :=
  NoDup (Map.keys (clients s))
  /\ getClientCount s + disconnects (trace s) = connects (trace s).

End Observations.

(* ================================================================== *)
(** ** A concrete host and the test application logic *)

Module Demo.

(** A host with a line-oriented wire format, [<type> <text>], in place
    of JSON: enough to run the server on concrete frames. *)
Definition after_prefix (p data : string) : option string :=
  if String.prefix p data
  then Some (String.substring (String.length p) (String.length data - String.length p) data)
  else None.

Definition parse_line (data : string) : option ClientMessage :=
  match after_prefix "sendMessage " data with
  | Some t => Some (sendMessage t)
  | None =>
      match after_prefix "setUsername " data with
      | Some u => Some (setUsername u)
      | None => None
      end
  end.

Definition payload_text (m : ServerMessage) : string :=
  match m with
  | welcome c => c
  | userJoined u => u
  | userLeft u => u
  | chatMessage p => text p
  | systemMessage t => t
  | error e => e
  end.

Definition print_line (m : ServerMessage) : string :=
  message_type m ++ " " ++ payload_text m.

Definition line_host : Host :=
  {| JSValue := ClientMessage;
     JSON_parse := parse_line;
     JSON_stringify := print_line;
     send_throws := fun rs => ReadyState_eqb rs CONNECTING;
     close_transition := fun rs =>
       match rs with
       | CONNECTING | OPEN => CLOSING
       | _ => rs
       end |}.

(** [testAppLogic] of server/test/wsServer.test.ts; its state is the
    array [connections]. *)
Definition testAppLogic : AppLogic (list string) (@JSValue line_host) :=
  {| createInitialState := [];
     handleConnect := fun connections clientId =>
       {| next_state := (connections ++ [clientId])%list;
          helper_calls := [SendTo clientId (welcome clientId)];
          throws := false |};
     handleDisconnect := fun connections clientId =>
       {| next_state := filter (fun id => negb (String.eqb id clientId)) connections;
          helper_calls := [];
          throws := false |};
     handleMessage := fun connections clientId message =>
       match message with
       | sendMessage t =>
           {| next_state := connections;
              helper_calls := [BroadcastAll (systemMessage ("echo:" ++ t))];
              throws := false |}
       | _ =>
           {| next_state := connections;
              helper_calls := [SendTo clientId (error "Unknown message type")];
              throws := false |}
       end |}.

Definition all_open : sock -> ReadyState := fun _ => OPEN.

(** A value of [Date.now()]. *)
Definition T : Z := 1700000000000.

(** A fresh server on [line_host]. *)
Definition fresh : WSServer (host := line_host) (list string) :=
  constructor (host := line_host) testAppLogic all_open.

(** The server reached from [fresh] by a list of events. *)
Definition after (events : list Event) : WSServer (host := line_host) (list string) :=
  snd (run (host := line_host) testAppLogic events fresh).

(** Three registered connections with the second one closing. *)
Definition abc : WSServer (host := line_host) (list string) :=
  {| clients := [("A", 1); ("B", 2); ("C", 3)];
     state := ["A"; "B"; "C"];
     wss := true;
     readyState := fun ws => if Nat.eqb ws 2 then CLOSING else OPEN;
     trace := [] |}.

End Demo.

(* ================================================================== *)
(** ** The chat application (server/src/appLogic.ts) *)

(** [String.prototype.trim] on strings of code units below 256: the
    white space and line terminators of that range are removed at
    both ends. *)
Module JSString.

Definition is_space (c : ascii) : bool :=
  let n := nat_of_ascii c in
  (Nat.leb 9 n && Nat.leb n 13) || Nat.eqb n 32 || Nat.eqb n 160.

Fixpoint drop_spaces (l : list ascii) : list ascii :=
  match l with
  | [] => []
  | c :: l' => if is_space c then drop_spaces l' else l
  end.

Definition trim (s : string) : string :=
  string_of_list_ascii
    (rev (drop_spaces (rev (drop_spaces (list_ascii_of_string s))))).

End JSString.

(** The values [JSON.parse] returns, and [undefined].  The members of
    an object are its own properties, one entry per key. *)
Module Value.

Unset Elimination Schemes.
Inductive t :=
| undefined
| null
| boolean (b : bool)
| number (literal : string)
| str (s : string)
| array (items : list t)
| object (members : list (string * t)).
Set Elimination Schemes.

Fixpoint member (p : string) (members : list (string * t)) : t :=
  match members with
  | [] => undefined
  | (k, v) :: rest => if String.eqb k p then v else member p rest
  end.

(** [v.p], for a property name [p] that no prototype defines ([type],
    [payload], [username], [text]): reading a property of [undefined]
    or of [null] is a TypeError, [None]. *)
Definition get (v : t) (p : string) : option t :=
  match v with
  | undefined | null => None
  | object members => Some (member p members)
  | _ => Some undefined
  end.

(** [v === literal] for a string literal. *)
Definition is_string (v : t) (literal : string) : bool :=
  match v with
  | str s => String.eqb s literal
  | _ => false
  end.

(** A [ClientMessage] as a value: [{type, payload}]. *)
Definition of_ClientMessage (m : ClientMessage) : t :=
  match m with
  | setUsername u =>
      object [("type", str "setUsername"); ("payload", object [("username", str u)])]
  | sendMessage x =>
      object [("type", str "sendMessage"); ("payload", object [("text", str x)])]
  end.

End Value.

(** A JavaScript [Map] with string keys, in insertion order. *)
Module Dict.
Section Values.

Variable V : Type.

Definition t := list (string * V).

Fixpoint get (k : string) (m : t) : option V :=
  match m with
  | [] => None
  | (k', v) :: m' => if String.eqb k' k then Some v else get k m'
  end.

Fixpoint set (k : string) (v : V) (m : t) : t :=
  match m with
  | [] => [(k, v)]
  | (k', v') :: m' =>
      if String.eqb k' k then (k, v) :: m' else (k', v') :: set k v m'
  end.

Definition delete (k : string) (m : t) : t :=
  filter (fun entry => negb (String.eqb (fst entry) k)) m.

Definition size (m : t) : nat := List.length m.

Definition keys (m : t) : list string := map fst m.

End Values.
End Dict.

(** [User] of types.ts *)
Module User.
Record t := {
  clientId : string;
  username : string;
  connectedAt : Z
}.
End User.

(** [ChatState] *)
Record ChatState := {
  users : Dict.t User.t;
  messageHistory : list ChatMessage
}.

Module Chat.
Section Logic.

(** [String.prototype.trim] *)
Variable trim : string -> string.

(** A callback that returns after making [calls]. *)
Definition returns (state : ChatState) (calls : list HelperCall) : Outcome ChatState :=
  {| next_state := state; helper_calls := calls; throws := false |}.

(** A callback that throws a TypeError before it did anything. *)
Definition type_error (state : ChatState) : Outcome ChatState :=
  {| next_state := state; helper_calls := []; throws := true |}.

Definition createInitialState : ChatState :=
  {| users := []; messageHistory := [] |}.

(** [now] is the value of [Date.now()]. *)
Definition handleConnect (now : Z) (state : ChatState) (clientId : string)
  : Outcome ChatState :=
  let user := {| User.clientId := clientId;
                 User.username := "Anonymous";
                 User.connectedAt := now |} in
  returns {| users := Dict.set clientId user (users state);
             messageHistory := messageHistory state |}
          [SendTo clientId (welcome clientId)].

Definition handleDisconnect (state : ChatState) (clientId : string)
  : Outcome ChatState :=
  match Dict.get clientId (users state) with
  | Some user =>
      returns {| users := Dict.delete clientId (users state);
                 messageHistory := messageHistory state |}
              [BroadcastAll (userLeft (User.username user))]
  | None => returns state []
  end.

(** [message.payload.<field>.trim()]: a TypeError unless the payload
    is there and the field is a string. *)
Definition trimmed_field (message : Value.t) (field : string) : option string :=
  match Value.get message "payload" with
  | None => None
  | Some payload =>
      match Value.get payload field with
      | Some (Value.str s) => Some (trim s)
      | _ => None
      end
  end.

Definition handleSetUsername (state : ChatState) (clientId : string)
    (message : Value.t) : Outcome ChatState :=
  match Dict.get clientId (users state) with
  | None => returns state []
  | Some user =>
      match trimmed_field message "username" with
      | None => type_error state
      | Some trimmed =>
          let newUsername := if String.eqb trimmed "" then "Anonymous" else trimmed in
          let oldUsername := User.username user in
          let renamed := {| User.clientId := User.clientId user;
                            User.username := newUsername;
                            User.connectedAt := User.connectedAt user |} in
          returns {| users := Dict.set clientId renamed (users state);
                     messageHistory := messageHistory state |}
                  (if String.eqb oldUsername "Anonymous"
                      && negb (String.eqb newUsername "Anonymous")
                   then [BroadcastAll (userJoined newUsername)]
                   else [])
      end
  end.

Definition handleSendMessage (now : Z) (state : ChatState) (clientId : string)
    (message : Value.t) : Outcome ChatState :=
  match Dict.get clientId (users state) with
  | None => returns state []
  | Some user =>
      match trimmed_field message "text" with
      | None => type_error state
      | Some text =>
          if String.eqb text "" then
            returns state [SendTo clientId (error "Message cannot be empty")]
          else if Nat.ltb 500 (String.length text) then
            returns state
              [SendTo clientId (error "Message too long (max 500 characters)")]
          else
            let chat := {| username := User.username user;
                           text := text;
                           timestamp := now;
                           clientId := clientId |} in
            let pushed := (messageHistory state ++ [chat])%list in
            let history :=
              if Nat.ltb 100 (List.length pushed) then List.tl pushed else pushed in
            returns {| users := users state; messageHistory := history |}
                    [BroadcastAll (chatMessage chat)]
      end
  end.

Definition handleMessage (now : Z) (state : ChatState) (clientId : string)
    (message : Value.t) : Outcome ChatState :=
  match Dict.get clientId (users state) with
  | None => returns state []
  | Some _ =>
      match Value.get message "type" with
      | None => type_error state
      | Some type =>
          if Value.is_string type "setUsername" then
            handleSetUsername state clientId message
          else if Value.is_string type "sendMessage" then
            handleSendMessage now state clientId message
          else
            returns state [SendTo clientId (error "Unknown message type")]
      end
  end.

(** The chat state with the number of callbacks run so far: [clock k]
    is the value [Date.now()] has during the callback number [k]. *)
Record Clocked := {
  chat : ChatState;
  callbacks : nat
}.

Definition timed (state : Clocked) (outcome : Outcome ChatState) : Outcome Clocked :=
  {| next_state := {| chat := next_state outcome; callbacks := S (callbacks state) |};
     helper_calls := helper_calls outcome;
     throws := throws outcome |}.

(** [chatAppLogic] *)
Definition chatAppLogic (clock : nat -> Z) : AppLogic Clocked Value.t :=
  Build_AppLogic
    {| chat := createInitialState; callbacks := 0 |}
    (fun state clientId =>
       timed state (handleConnect (clock (callbacks state)) (chat state) clientId))
    (fun state clientId =>
       timed state (handleDisconnect (chat state) clientId))
    (fun state clientId message =>
       timed state (handleMessage (clock (callbacks state)) (chat state) clientId message)).

End Logic.
End Chat.

(** A host whose parsed values are [Value.t]. *)
Definition json_host (parse : string -> option Value.t)
    (stringify : ServerMessage -> string)
    (throwing : ReadyState -> bool) (closing : ReadyState -> ReadyState) : Host :=
  {| JSValue := Value.t;
     JSON_parse := parse;
     JSON_stringify := stringify;
     send_throws := throwing;
     close_transition := closing |}.

(** A chat room and a server running the chat application, on a host
    with the line-oriented wire format of [Demo]. *)
Module ChatDemo.

Definition alice : User.t :=
  {| User.clientId := "A"; User.username := "Alice"; User.connectedAt := 1 |}.

Definition guest : User.t :=
  {| User.clientId := "B"; User.username := "Anonymous"; User.connectedAt := 2 |}.

Definition room : ChatState :=
  {| users := [("A", alice); ("B", guest)]; messageHistory := [] |}.

(** The frames of [Demo], and [type <t>] for an object that has a
    [type] and nothing else. *)
Definition parse (data : string) : option Value.t :=
  match Demo.parse_line data with
  | Some m => Some (Value.of_ClientMessage m)
  | None =>
      match Demo.after_prefix "type " data with
      | Some t => Some (Value.object [("type", Value.str t)])
      | None => None
      end
  end.

Definition host : Host :=
  json_host
    parse
    Demo.print_line
    (fun rs => ReadyState_eqb rs CONNECTING)
    (fun rs => match rs with CONNECTING | OPEN => CLOSING | _ => rs end).

Definition clock (k : nat) : Z := (Demo.T + Z.of_nat k)%Z.

Definition logic : AppLogic Chat.Clocked (@JSValue host) :=
  Chat.chatAppLogic JSString.trim clock.

(** Alice and a guest connected, both transports open. *)
Definition server : WSServer (host := host) Chat.Clocked :=
  {| clients := [("A", 1); ("B", 2)];
     state := {| Chat.chat := room; Chat.callbacks := 2 |};
     wss := true;
     readyState := Demo.all_open;
     trace := [] |}.

End ChatDemo.

(** Events that accept no connection and change no transport. *)
Definition keeps_transports (e : Event) : bool :=
  match e with
  | ev_connection _ _ _ | ev_readyState _ _ => false
  | _ => true
  end.

(** The chat server on a host that also parses three frames of JSON
    that are not structured messages, as [JSON.parse] does. *)
Module JsonDemo.

Definition parse (data : string) : option Value.t :=
  if String.eqb data "42" then Some (Value.number "42")
  else if String.eqb data "null" then Some Value.null
  else if String.eqb data "{}" then Some (Value.object [])
  else ChatDemo.parse data.

Definition host : Host :=
  json_host
    parse
    Demo.print_line
    (fun rs => ReadyState_eqb rs CONNECTING)
    (fun rs => match rs with CONNECTING | OPEN => CLOSING | _ => rs end).

Definition logic : AppLogic Chat.Clocked (@JSValue host) :=
  Chat.chatAppLogic JSString.trim ChatDemo.clock.

Definition server : WSServer (host := host) Chat.Clocked :=
  {| clients := [("A", 1); ("B", 2)];
     state := {| Chat.chat := ChatDemo.room; Chat.callbacks := 2 |};
     wss := true;
     readyState := Demo.all_open;
     trace := [] |}.

End JsonDemo.

(** A chat room whose history is full. *)
Module FullRoom.

Definition said : ChatMessage :=
  {| username := "Alice"; text := "hello"; timestamp := 1; clientId := "A" |}.

Definition room : ChatState :=
  {| users := users ChatDemo.room; messageHistory := List.repeat said 100 |}.

End FullRoom.

(* ================================================================== *)
(** * Properties *)

Unset Implicit Arguments.

(** ** The registry as a [Map] *)

Lemma Map_get_delete_same k m : Map.get k (Map.delete k m) = None.
Proof.
  induction m as [|[k' v] m IH]; simpl; auto.
  destruct (String.eqb k' k) eqn:E; simpl; auto.
  now rewrite E.
Qed.

Lemma Map_keys_delete k m :
  Map.keys (Map.delete k m) = filter (fun k' => negb (String.eqb k' k)) (Map.keys m).
Proof.
  induction m as [|[k' v] m IH]; simpl; auto.
  destruct (String.eqb k' k); simpl; now rewrite ?IH.
Qed.

Lemma Map_keys_set_fresh k v m :
  existsb (String.eqb k) (Map.keys m) = false ->
  Map.set k v m = (m ++ [(k, v)])%list.
Proof.
  induction m as [|[k' v'] m IH]; simpl; auto.
  intros H. apply orb_false_iff in H as [H1 H2].
  rewrite String.eqb_sym, H1. now rewrite IH.
Qed.

Lemma Map_keys_set k v m : incl (Map.keys m) (Map.keys (Map.set k v m)).
Proof.
  induction m as [|[k' v'] m IH]; simpl.
  - intros x [].
  - destruct (String.eqb k' k) eqn:E.
    + apply String.eqb_eq in E. subst. simpl. apply incl_refl.
    + simpl. intros x [<-|Hx]; [now left | right; now apply IH].
Qed.

Lemma existsb_eqb_In k (l : list string) :
  existsb (String.eqb k) l = true <-> In k l.
Proof.
  rewrite existsb_exists. split.
  - intros (x & Hx & E). apply String.eqb_eq in E. now subst.
  - intros H. exists k. split; auto. apply String.eqb_refl.
Qed.

Lemma filter_out_absent k (l : list string) :
  ~ In k l -> filter (fun k' => negb (String.eqb k' k)) l = l.
Proof.
  induction l as [|x l IH]; simpl; auto.
  intros H. destruct (String.eqb x k) eqn:E.
  - apply String.eqb_eq in E. subst. exfalso. apply H. now left.
  - simpl. f_equal. apply IH. intros Hin. apply H. now right.
Qed.

Lemma length_filter_out k (l : list string) :
  NoDup l -> In k l ->
  S (List.length (filter (fun k' => negb (String.eqb k' k)) l)) = List.length l.
Proof.
  induction 1 as [|x l Hx Hnd IH]; simpl; [intros []|].
  intros [->|Hin].
  - rewrite String.eqb_refl. simpl. now rewrite filter_out_absent.
  - destruct (String.eqb x k) eqn:E.
    + apply String.eqb_eq in E. subst. contradiction.
    + simpl. now rewrite IH.
Qed.

Lemma NoDup_filter_out k (l : list string) :
  NoDup l -> NoDup (filter (fun k' => negb (String.eqb k' k)) l).
Proof. apply NoDup_filter. Qed.

Lemma NoDup_snoc (k : string) l : NoDup l -> ~ In k l -> NoDup (l ++ [k]).
Proof.
  intros Hl Hk. apply NoDup_app; auto.
  - repeat constructor. intros [].
  - intros x Hx [<-|[]]. contradiction.
Qed.

(** ** Traces *)

Section TraceFacts.

Context {host : Host}.
Context {State : Type}.
Implicit Types (s : WSServer State) (es : list Effect).

Lemma with_effects_nil s : with_effects [] s = s.
Proof. destruct s. unfold with_effects. simpl. now rewrite app_nil_r. Qed.

Lemma with_effect_one e s : with_effect e s = with_effects [e] s.
Proof. reflexivity. Qed.

Lemma with_effects_app es1 es2 s :
  with_effects es2 (with_effects es1 s) = with_effects (es1 ++ es2) s.
Proof. unfold with_effects. simpl. now rewrite app_assoc. Qed.

Lemma with_effects_state es st s :
  with_effects es (with_state st s) = with_state st (with_effects es s).
Proof. reflexivity. Qed.

Lemma with_effects_clients es f s :
  with_effects es (with_clients f s) = with_clients f (with_effects es s).
Proof. reflexivity. Qed.

Lemma skipn_length_app {A} (l1 l2 : list A) : skipn (List.length l1) (l1 ++ l2) = l2.
Proof. induction l1; simpl; auto. Qed.

Lemma since_with_effects es s : since s (with_effects es s) = es.
Proof. unfold since. simpl. apply skipn_length_app. Qed.

Lemma since_with_state es st s : since s (with_effects es (with_state st s)) = es.
Proof. unfold since. simpl. apply skipn_length_app. Qed.

Lemma since_with_clients es f s : since s (with_effects es (with_clients f s)) = es.
Proof. unfold since. simpl. apply skipn_length_app. Qed.

Lemma writes_app es1 es2 : writes (es1 ++ es2) = (writes es1 ++ writes es2)%list.
Proof.
  induction es1 as [|e es1 IH]; simpl; auto.
  destruct e; simpl; now rewrite ?IH.
Qed.

Lemma invocations_app es1 es2 :
  invocations (es1 ++ es2) = (invocations es1 ++ invocations es2)%list.
Proof.
  induction es1 as [|e es1 IH]; simpl; auto.
  destruct e; simpl; now rewrite ?IH.
Qed.

Lemma serializations_app es1 es2 :
  serializations (es1 ++ es2) = serializations es1 + serializations es2.
Proof.
  induction es1 as [|e es1 IH]; simpl; auto.
  destruct e; simpl; now rewrite ?IH.
Qed.

(** The effects of delivering [data] to a list of entries. *)
Lemma writes_sends data (entries : Map.t) :
  writes (map (fun entry => Send (snd entry) data) entries) = deliveries data entries.
Proof. induction entries as [|[k v] l IH]; simpl; now rewrite ?IH. Qed.

Lemma invocations_sends data (entries : Map.t) :
  invocations (map (fun entry => Send (snd entry) data) entries) = [].
Proof. induction entries as [|[k v] l IH]; simpl; auto. Qed.

Lemma serializations_sends data (entries : Map.t) :
  serializations (map (fun entry => Send (snd entry) data) entries) = 0.
Proof. induction entries as [|[k v] l IH]; simpl; auto. Qed.

Lemma output_sends data (entries : Map.t) :
  forallb is_output (map (fun entry => Send (snd entry) data) entries) = true.
Proof. induction entries as [|[k v] l IH]; simpl; auto. Qed.

Lemma output_invocations es : forallb is_output es = true -> invocations es = [].
Proof.
  induction es as [|e es IH]; simpl; auto.
  destruct e; simpl; auto; discriminate.
Qed.

End TraceFacts.

(** ** Routing helpers *)

Section HelperFacts.

Context {host : Host}.
Context {State : Type}.
Implicit Types (s : WSServer State) (es : list Effect).

Local Open Scope server_scope.

Lemma ReadyState_eqb_eq a b : ReadyState_eqb a b = true <-> a = b.
Proof. destruct a, b; simpl; split; intros; congruence. Qed.

(** A guarded write: nothing happens on a transport that is not open,
    and the write on an open one does not throw. *)
Lemma guarded_send ws data s :
  (rs <- ws_readyState ws ;;
   if ReadyState_eqb rs OPEN then ws_send ws data else ret tt) s
  = (Normal tt,
     with_effects (if ReadyState_eqb (readyState s ws) OPEN then [Send ws data] else []) s).
Proof.
  unfold bind, ws_readyState, ws_send, bind, ws_readyState.
  destruct (readyState s ws) eqn:E; simpl; unfold ret;
    rewrite ?with_effects_nil; try reflexivity.
  rewrite E. reflexivity.
Qed.

(** Iterating a visitor that writes [data] to the entries selected by
    [keep] and skips the others. *)
Lemma visit_all_sends (visit : sock -> string -> M State unit)
    (keep : WSServer State -> string * sock -> bool) data :
  (forall es s entry, keep (with_effects es s) entry = keep s entry) ->
  (forall ws clientId s,
      visit ws clientId s
      = (Normal tt,
         with_effects (if keep s (clientId, ws) then [Send ws data] else []) s)) ->
  forall entries s,
    visit_all visit entries s
    = (Normal tt,
       with_effects (map (fun entry => Send (snd entry) data) (filter (keep s) entries)) s).
Proof.
  intros Hkeep Hvisit. induction entries as [|[clientId ws] rest IH]; intros s; simpl.
  - unfold ret. now rewrite with_effects_nil.
  - unfold bind. rewrite Hvisit, IH, with_effects_app.
    rewrite (filter_ext _ _ (Hkeep _ s)).
    destruct (keep s (clientId, ws)); reflexivity.
Qed.

Lemma broadcastAll_run message s :
  broadcastAll message s
  = (Normal tt,
     with_effects
       (Stringify message
        :: map (fun entry => Send (snd entry) (JSON_stringify message))
               (filter (writable s) (clients s))) s).
Proof.
  unfold broadcastAll, stringify, clients_forEach, get_server, emit, modify, bind, ret.
  rewrite (visit_all_sends _ writable (JSON_stringify message)).
  - rewrite with_effect_one, with_effects_app. reflexivity.
  - reflexivity.
  - intros ws clientId s0. apply guarded_send.
Qed.

Lemma broadcastExcept_run excludeClientId message s :
  broadcastExcept excludeClientId message s
  = (Normal tt,
     with_effects
       (Stringify message
        :: map (fun entry => Send (snd entry) (JSON_stringify message))
               (filter (fun entry => not_excluded excludeClientId entry && writable s entry)
                       (clients s))) s).
Proof.
  unfold broadcastExcept, stringify, clients_forEach, get_server, emit, modify, bind at 1 2 3, ret.
  rewrite (visit_all_sends _
             (fun s entry => not_excluded excludeClientId entry && writable s entry)
             (JSON_stringify message)).
  - rewrite with_effect_one, with_effects_app. reflexivity.
  - reflexivity.
  - intros ws clientId s0. unfold not_excluded. simpl.
    destruct (String.eqb clientId excludeClientId); simpl.
    + unfold ret. now rewrite with_effects_nil.
    + apply guarded_send.
Qed.

Lemma sendTo_run clientId message s :
  sendTo clientId message s
  = (Normal tt,
     with_effects
       match Map.get clientId (clients s) with
       | Some ws =>
           if ReadyState_eqb (readyState s ws) OPEN
           then [Stringify message; Send ws (JSON_stringify message)]
           else []
       | None => []
       end s).
Proof.
  unfold sendTo, get_server, bind at 1.
  destruct (Map.get clientId (clients s)) as [ws|].
  - unfold bind, ws_readyState.
    destruct (ReadyState_eqb (readyState s ws) OPEN) eqn:E.
    + apply ReadyState_eqb_eq in E.
      unfold stringify, emit, modify, bind, ret, ws_send, bind, ws_readyState. simpl.
      rewrite E. unfold emit, modify. rewrite !with_effect_one, with_effects_app.
      reflexivity.
    + unfold ret. now rewrite with_effects_nil.
  - unfold ret. now rewrite with_effects_nil.
Qed.

(** Every helper returns normally and only adds output to the trace. *)
Lemma createHelpers_run call s :
  exists es,
    createHelpers call s = (Normal tt, with_effects es s)
    /\ forallb is_output es = true.
Proof.
  destruct call as [m | c m | c m]; simpl.
  - eexists. split; [apply broadcastAll_run|]. simpl. apply output_sends.
  - eexists. split; [apply sendTo_run|].
    destruct (Map.get c (clients s)); auto.
    destruct (ReadyState_eqb _ _); auto.
  - eexists. split; [apply broadcastExcept_run|]. simpl. apply output_sends.
Qed.

Lemma perform_run calls s :
  exists es,
    perform createHelpers calls s = (Normal tt, with_effects es s)
    /\ forallb is_output es = true.
Proof.
  revert s. induction calls as [|call rest IH]; intros s; simpl.
  - exists []. split; auto. unfold ret. now rewrite with_effects_nil.
  - destruct (createHelpers_run call s) as (es1 & E1 & H1).
    destruct (IH (with_effects es1 s)) as (es2 & E2 & H2).
    exists (es1 ++ es2)%list. split.
    + unfold bind. rewrite E1, E2, with_effects_app. reflexivity.
    + rewrite forallb_app, H1, H2. reflexivity.
Qed.

(** Invoking a callback: one [Invoke] effect, the state it leaves, the
    output of its helper calls, and its own completion. *)
Lemma invoke_run call (callback : State -> Outcome State) s :
  exists es,
    invoke call callback createHelpers s
    = ((if throws (callback (state s)) then Throw else Normal tt),
       with_effects (Invoke call :: es)
                    (with_state (next_state (callback (state s))) s))
    /\ forallb is_output es = true.
Proof.
  unfold invoke, get_server, bind at 1.
  unfold emit, modify, bind at 1 2.
  destruct (perform_run (helper_calls (callback (state s)))
              (with_state (next_state (callback (state s))) (with_effect (Invoke call) s)))
    as (es & E & H).
  exists es. split; auto.
  unfold bind. rewrite E.
  replace (with_effects es _)
    with (with_effects (Invoke call :: es)
            (with_state (next_state (callback (state s))) s)).
  - destruct (throws _); reflexivity.
  - unfold with_effects, with_state, with_effect. simpl. now rewrite <- app_assoc.
Qed.

End HelperFacts.

Section HelperTheorems.

Context {host : Host}.
Context {State : Type}.
Implicit Types (s : WSServer State) (es : list Effect).

Lemma In_deliveries ws d data (entries : Map.t) :
  In (ws, d) (deliveries data entries)
  <-> d = data /\ exists clientId, In (clientId, ws) entries.
Proof.
  unfold deliveries. rewrite in_map_iff. split.
  - intros ([k v] & E & Hin). simpl in E. inversion E; subst. eauto.
  - intros (-> & k & Hin). exists (k, ws). auto.
Qed.

(** C2. [broadcastAll(m)] returns normally; what it writes is the
    serialized [m], once for every registered connection whose
    transport is open, in registry order, and nothing else: no
    connection whose transport is not open is written to, and none of
    them stops the iteration. *)
Theorem broadcastAll_reaches_every_open_connection (message : ServerMessage) s :
  let (completion, s') := broadcastAll message s in
  completion = Normal tt
  /\ writes (since s s')
     = deliveries (JSON_stringify message) (filter (writable s) (clients s))
  /\ (forall clientId ws,
        In (clientId, ws) (clients s) -> readyState s ws = OPEN ->
        In (ws, JSON_stringify message) (writes (since s s')))
  /\ (forall ws d, In (ws, d) (writes (since s s')) -> readyState s ws = OPEN).
Proof.
  rewrite broadcastAll_run, since_with_effects. simpl. rewrite writes_sends.
  repeat split.
  - intros clientId ws Hin Hopen. apply In_deliveries. split; auto.
    exists clientId. apply filter_In. split; auto.
    unfold writable. simpl. now rewrite Hopen.
  - intros ws d Hin. apply In_deliveries in Hin as (_ & clientId & Hin).
    apply filter_In in Hin as (_ & Hw). unfold writable in Hw. simpl in Hw.
    now apply ReadyState_eqb_eq.
Qed.

(** C5. [broadcastExcept(A, m)] returns normally; what it writes is
    the serialized [m], once for every registered connection other than
    [A] whose transport is open; the connection registered as [A] is
    not written to. *)
Theorem broadcastExcept_skips_the_excluded (excludeClientId : string)
    (message : ServerMessage) s :
  let (completion, s') := broadcastExcept excludeClientId message s in
  completion = Normal tt
  /\ writes (since s s')
     = deliveries (JSON_stringify message)
         (filter (fun entry => not_excluded excludeClientId entry && writable s entry)
                 (clients s))
  /\ (forall clientId ws,
        In (clientId, ws) (clients s) -> clientId <> excludeClientId ->
        readyState s ws = OPEN ->
        In (ws, JSON_stringify message) (writes (since s s')))
  /\ (forall ws,
        Map.get excludeClientId (clients s) = Some ws ->
        (forall clientId, In (clientId, ws) (clients s) -> clientId = excludeClientId) ->
        ~ In ws (map fst (writes (since s s')))).
Proof.
  rewrite broadcastExcept_run, since_with_effects. simpl. rewrite writes_sends.
  repeat split.
  - intros clientId ws Hin Hne Hopen. apply In_deliveries. split; auto.
    exists clientId. apply filter_In. split; auto.
    unfold not_excluded, writable. simpl. rewrite Hopen.
    apply String.eqb_neq in Hne. now rewrite Hne.
  - intros ws Hget Honly Hin.
    apply in_map_iff in Hin as ([ws' d] & E & Hin). simpl in E. subst ws'.
    apply In_deliveries in Hin as (_ & clientId & Hin).
    apply filter_In in Hin as (Hin & Hkeep).
    apply andb_prop in Hkeep as (Hne & _).
    apply Honly in Hin. subst clientId.
    unfold not_excluded in Hne. simpl in Hne. now rewrite String.eqb_refl in Hne.
Qed.

(** C6. [sendTo(id, m)] with [id] not registered, or registered with a
    transport that is not open, returns normally and changes nothing:
    no write, no serialization, the same server. *)
Theorem sendTo_drops_silently (clientId : string) (message : ServerMessage) s :
  Map.get clientId (clients s) = None
  \/ (exists ws, Map.get clientId (clients s) = Some ws /\ readyState s ws <> OPEN) ->
  sendTo clientId message s = (Normal tt, s).
Proof.
  intros H. rewrite sendTo_run.
  destruct H as [-> | (ws & -> & Hne)].
  - now rewrite with_effects_nil.
  - destruct (ReadyState_eqb (readyState s ws) OPEN) eqn:E.
    + apply ReadyState_eqb_eq in E. contradiction.
    + now rewrite with_effects_nil.
Qed.

(** C7. A call of [broadcastAll] or of [broadcastExcept] calls
    [JSON.stringify] once, whatever the number of recipients, and every
    write it makes carries the result of that call. *)
Theorem broadcast_serializes_once (excludeClientId : string)
    (message : ServerMessage) s :
  (let s' := snd (broadcastAll message s) in
   serializations (since s s') = 1
   /\ Forall (fun w => snd w = JSON_stringify message) (writes (since s s')))
  /\ (let s' := snd (broadcastExcept excludeClientId message s) in
      serializations (since s s') = 1
      /\ Forall (fun w => snd w = JSON_stringify message) (writes (since s s'))).
Proof.
  rewrite broadcastAll_run, broadcastExcept_run. simpl.
  rewrite !since_with_effects. simpl.
  rewrite !serializations_sends, !writes_sends.
  repeat split; apply Forall_forall; intros [ws d] Hin;
    apply In_deliveries in Hin as (-> & _); reflexivity.
Qed.

(** C9. None of the three routing helpers changes the registry. *)
Theorem helpers_keep_registry (clientId : string) (message : ServerMessage) s :
  clients (snd (sendTo clientId message s)) = clients s
  /\ clients (snd (broadcastAll message s)) = clients s
  /\ clients (snd (broadcastExcept clientId message s)) = clients s.
Proof.
  rewrite sendTo_run, broadcastAll_run, broadcastExcept_run. auto.
Qed.

End HelperTheorems.

(** ** Dispatcher *)

Section DispatcherFacts.

Context {host : Host}.
Context {State : Type}.
Variable appLogic : AppLogic State JSValue.
Implicit Types (s : WSServer State) (es : list Effect).

Local Open Scope server_scope.

Lemma with_state_same s : with_state (state s) s = s.
Proof. now destruct s. Qed.

Lemma on_message_run ws clientId data s :
  exists es st,
    on_message (setupClientHandlers appLogic ws clientId) data s
    = (Normal tt, with_effects es (with_state st s))
    /\ invocations es = callback_of (ev_message ws clientId data).
Proof.
  simpl. unfold try_catch, bind at 1, parse.
  destruct (JSON_parse data) as [message|].
  - unfold ret.
    destruct (invoke_run (onMessage clientId message)
                (fun st => handleMessage appLogic st clientId message) s)
      as (es & E & Hes).
    rewrite E. destruct (throws _).
    + destruct (createHelpers_run (SendTo clientId (error "Invalid message format"))
                  (with_effects (Invoke (onMessage clientId message) :: es)
                     (with_state
                        (next_state (handleMessage appLogic (state s) clientId message)) s)))
        as (es2 & E2 & Hes2).
      simpl in E2. rewrite E2, with_effects_app.
      eexists _, _. split; [reflexivity|].
      simpl. rewrite invocations_app, !output_invocations; auto.
    + eexists _, _. split; [reflexivity|].
      simpl. now rewrite output_invocations.
  - unfold throw.
    destruct (createHelpers_run (SendTo clientId (error "Invalid message format")) s)
      as (es2 & E2 & Hes2).
    simpl in E2. rewrite E2.
    exists es2, (state s). rewrite with_state_same. split; auto.
    now apply output_invocations.
Qed.

(** One event: the registry changes as [world_after] says, the
    application state is whatever the callback leaves, and the trace
    grows by effects among which the only invocations are
    [callback_of]. *)
Lemma dispatch_run e s :
  exists es st,
    snd (dispatch appLogic e s) = with_effects es (with_state st (world_after e s))
    /\ invocations es = callback_of e.
Proof.
  destruct e as [ws now rnd36 | ws clientId data | ws clientId | ws clientId | | ws rs].
  - simpl. unfold modify, bind at 1.
    destruct (invoke_run (onConnect (generateClientId now rnd36))
                (fun st => handleConnect appLogic st (generateClientId now rnd36))
                (with_clients (Map.set (generateClientId now rnd36) ws) s))
      as (es & E & Hes).
    rewrite E. eexists _, _. split; [reflexivity|].
    simpl. now rewrite output_invocations.
  - destruct (on_message_run ws clientId data s) as (es & st & E & Hes).
    exists es, st. unfold dispatch. rewrite E. auto.
  - simpl. unfold modify, bind at 1.
    destruct (invoke_run (onDisconnect clientId)
                (fun st => handleDisconnect appLogic st clientId)
                (with_clients (Map.delete clientId) s))
      as (es & E & Hes).
    rewrite E. eexists _, _. split; [reflexivity|].
    simpl. now rewrite output_invocations.
  - exists [], (state s). simpl.
    now rewrite with_state_same, with_effects_nil.
  - exists [], (state s). simpl.
    now rewrite with_state_same, with_effects_nil.
  - exists [], (state (with_readyState ws rs s)).
    rewrite with_state_same, with_effects_nil. split; reflexivity.
Qed.

End DispatcherFacts.

Section DispatcherTheorems.

Context {host : Host}.
Context {State : Type}.
Variable appLogic : AppLogic State JSValue.
Implicit Types (s : WSServer State) (es : list Effect).

Local Open Scope server_scope.

Lemma since_extension s s' es : trace s' = (trace s ++ es)%list -> since s s' = es.
Proof. unfold since. intros ->. apply skipn_length_app. Qed.

Lemma run_app events1 events2 s :
  run appLogic (events1 ++ events2) s
  = match run appLogic events1 s with
    | (Normal _, s1) => run appLogic events2 s1
    | (Throw, s1) => (Throw, s1)
    end.
Proof.
  revert s. induction events1 as [|e rest IH]; intros s; simpl; auto.
  unfold bind. destruct (dispatch appLogic e s) as [[[]|] s1]; auto.
Qed.

(** Error events of a connection do nothing. *)
Lemma run_errors ws clientId events s :
  forallb (is_error_of ws clientId) events = true ->
  run appLogic events s = (Normal tt, s).
Proof.
  revert s. induction events as [|e rest IH]; intros s H; simpl in *; auto.
  apply andb_prop in H as (He & Hrest).
  destruct e; try discriminate. simpl. unfold bind, ret. now apply IH.
Qed.

Lemma connects_app es1 es2 : connects (es1 ++ es2) = connects es1 + connects es2.
Proof. unfold connects. now rewrite invocations_app, filter_app, length_app. Qed.

Lemma disconnects_app es1 es2 :
  disconnects (es1 ++ es2) = disconnects es1 + disconnects es2.
Proof. unfold disconnects. now rewrite invocations_app, filter_app, length_app. Qed.

Lemma size_keys (m : Map.t) : Map.size m = List.length (Map.keys m).
Proof. unfold Map.size, Map.keys. now rewrite length_map. Qed.

Lemma dispatch_counted e rest s :
  counted s ->
  consistent (Map.keys (clients s)) (e :: rest) = true ->
  counted (snd (dispatch appLogic e s))
  /\ consistent (Map.keys (clients (snd (dispatch appLogic e s)))) rest = true.
Proof.
  intros (Hnd & Hcount) Hcons.
  destruct (dispatch_run appLogic e s) as (es & st & -> & Hes).
  unfold counted, getClientCount, connects, disconnects in *.
  cbn [with_effects with_state clients trace].
  rewrite !invocations_app, !filter_app, !length_app, Hes.
  rewrite size_keys in *.
  destruct e as [ws now rnd36 | ws clientId data | ws clientId | ws clientId | | ws rs];
    cbn [world_after with_clients with_readyState clients callback_of consistent] in *.
  - apply andb_prop in Hcons as (Hfresh & Hrest).
    apply negb_true_iff in Hfresh.
    rewrite (Map_keys_set_fresh _ _ _ Hfresh).
    unfold Map.keys in *. rewrite map_app. simpl. repeat split; auto.
    + apply NoDup_snoc; auto. intros Hin.
      apply existsb_eqb_In in Hin. congruence.
    + rewrite length_app. simpl. lia.
  - repeat split; auto.
    destruct (JSON_parse data); simpl; lia.
  - apply andb_prop in Hcons as (Hreg & Hrest).
    apply existsb_eqb_In in Hreg.
    rewrite Map_keys_delete. repeat split; auto.
    + now apply NoDup_filter_out.
    + simpl. pose proof (@length_filter_out _ _ Hnd Hreg). lia.
  - repeat split; auto. simpl. lia.
  - repeat split; auto. simpl. lia.
  - repeat split; auto. simpl. lia.
Qed.

Lemma run_counted events s :
  counted s ->
  consistent (Map.keys (clients s)) events = true ->
  counted (snd (run appLogic events s)).
Proof.
  revert s. induction events as [|e rest IH]; intros s Hs Hcons; simpl; auto.
  destruct (dispatch_counted e rest s Hs Hcons) as (Hs1 & Hcons1).
  unfold bind. destruct (dispatch appLogic e s) as [[[]|] s1]; simpl in *; auto.
Qed.

(** X24. Start from a new server and handle any list of events in
    which every accepted connection is given an identifier that is not
    registered at that moment and every close event is that of a
    registered identifier.  Then [getClientCount()] is the number of
    [handleConnect] invocations minus the number of
    [handleDisconnect] invocations made so far. *)
Theorem count_is_connects_minus_disconnects (events : list Event)
    (transports : sock -> ReadyState) :
  consistent [] events = true ->
  let s' := snd (run appLogic events (constructor appLogic transports)) in
  getClientCount s' = connects (trace s') - disconnects (trace s')
  /\ disconnects (trace s') <= connects (trace s').
Proof.
  intros Hcons.
  destruct (run_counted events (constructor appLogic transports)) as (_ & Hcount).
  - split; [constructor | reflexivity].
  - exact Hcons.
  - simpl. lia.
Qed.

End DispatcherTheorems.

(** ** Shutdown *)

Section CloseTheorems.

Context {host : Host}.
Context {State : Type}.
Variable appLogic : AppLogic State JSValue.
Implicit Types (s : WSServer State) (es : list Effect).

Local Open Scope server_scope.

Lemma ws_close_run ws s :
  ws_close ws s
  = (Normal tt,
     with_effect (CloseSocket ws)
       (with_readyState ws (close_transition (readyState s ws)) s)).
Proof. reflexivity. Qed.

Lemma close_every_transport (entries : Map.t) s :
  exists s',
    visit_all (fun ws _ => ws_close ws) entries s = (Normal tt, s')
    /\ clients s' = clients s
    /\ state s' = state s
    /\ wss s' = wss s
    /\ trace s' = (trace s ++ map (fun entry => CloseSocket (snd entry)) entries)%list.
Proof.
  revert s. induction entries as [|[clientId ws] rest IH]; intros s; simpl.
  - exists s. unfold ret. now rewrite app_nil_r.
  - unfold bind at 1. rewrite ws_close_run.
    destruct (IH (with_effect (CloseSocket ws)
                    (with_readyState ws (close_transition (readyState s ws)) s)))
      as (s' & E & Hc & Hst & Hw & Ht).
    exists s'. rewrite E. repeat split; auto.
    rewrite Ht. simpl. now rewrite <- app_assoc.
Qed.

(** Events other than the close event of a connection keep every
    registered identifier. *)
Lemma keys_survive e s :
  is_close e = false ->
  incl (Map.keys (clients s)) (Map.keys (clients (snd (dispatch appLogic e s)))).
Proof.
  intros He.
  destruct (dispatch_run appLogic e s) as (es & st & -> & _).
  destruct e; try discriminate; simpl; try apply incl_refl.
  apply Map_keys_set.
Qed.

(** C10. [close()] asks every registered transport to close, in
    registry order, then closes the listener, and returns; the registry
    it leaves is the registry it found, so [getClientCount()] is
    unchanged.  Afterwards an identifier leaves the registry only
    through a close event: every other event keeps all registered
    identifiers, and the close event of an identifier deletes it. *)
Theorem close_leaves_registry_to_close_events s :
  let (completion, s') := close s in
  completion = Normal tt
  /\ clients s' = clients s
  /\ getClientCount s' = getClientCount s
  /\ since s s'
     = (map (fun entry => CloseSocket (snd entry)) (clients s) ++ [CloseListener])%list
  /\ wss s' = false
  /\ (forall e, is_close e = false ->
        incl (Map.keys (clients s'))
             (Map.keys (clients (snd (dispatch appLogic e s')))))
  /\ (forall ws clientId,
        clients (snd (dispatch appLogic (ev_close ws clientId) s'))
        = Map.delete clientId (clients s')).
Proof.
  unfold close, clients_forEach, get_server, bind at 1 2.
  destruct (close_every_transport (clients s) s) as (s1 & E & Hc & Hst & Hw & Ht).
  rewrite E. unfold wss_close, modify, emit, modify, bind.
  unfold getClientCount. repeat split; auto.
  - simpl. now rewrite Hc.
  - apply since_extension. simpl. rewrite Ht. now rewrite <- app_assoc.
  - intros e He. apply (keys_survive e _ He).
  - intros ws clientId.
    destruct (dispatch_run appLogic (ev_close ws clientId)
                (with_effect CloseListener (with_wss false s1)))
      as (es & st & -> & _).
    reflexivity.
Qed.

End CloseTheorems.

(** ** Identity generator *)

Lemma has_char_digits d : JS.has_char "_" (NilEmpty.string_of_uint d) = false.
Proof. induction d; simpl; auto. Qed.

Lemma has_char_number n : JS.has_char "_" (JS.number_to_string n) = false.
Proof.
  unfold JS.number_to_string.
  destruct (Z.to_int n) as [d|d]; simpl;
    destruct d; simpl; auto using has_char_digits.
Qed.

Lemma to_int_proper n : Z.to_int n <> Decimal.Pos Decimal.Nil /\ Z.to_int n <> Decimal.Neg Decimal.Nil.
Proof.
  destruct n; simpl; split; try discriminate; intros E; inversion E as [E'];
    now apply DecimalPos.Unsigned.to_uint_nonnil in E'.
Qed.

Lemma number_to_string_inj n n' :
  JS.number_to_string n = JS.number_to_string n' -> n = n'.
Proof.
  unfold JS.number_to_string. intros E.
  apply DecimalZ.to_int_inj.
  destruct (to_int_proper n) as (Hp & Hn). destruct (to_int_proper n') as (Hp' & Hn').
  pose proof (NilZero.isi _ Hp Hn) as I. pose proof (NilZero.isi _ Hp' Hn') as I'.
  rewrite E in I. congruence.
Qed.

(** Two strings cut at their first ["_"]. *)
Lemma first_separator a b x y :
  JS.has_char "_" a = false -> JS.has_char "_" b = false ->
  a ++ String "_" x = b ++ String "_" y -> a = b /\ x = y.
Proof.
  revert b. induction a as [|c a IH]; intros [|c' b]; simpl.
  - intros _ _ E. now inversion E.
  - intros _ Hb E. inversion E; subst. simpl in Hb. discriminate.
  - intros Ha _ E. inversion E; subst. simpl in Ha. discriminate.
  - intros Ha Hb E. inversion E; subst.
    apply orb_false_iff in Ha as (_ & Ha). apply orb_false_iff in Hb as (_ & Hb).
    destruct (IH b Ha Hb H1) as (-> & ->). auto.
Qed.

Lemma generateClientId_inj now now' rnd36 rnd36' :
  generateClientId now rnd36 = generateClientId now' rnd36' ->
  now = now' /\ JS.substring 2 11 rnd36 = JS.substring 2 11 rnd36'.
Proof.
  unfold generateClientId. intros E.
  change ("client_" ++ ?x) with (String "c" (String "l" (String "i" (String "e"
    (String "n" (String "t" (String "_" x))))))) in E.
  injection E as E.
  apply first_separator in E as (En & Er); auto using has_char_number.
  split; auto. now apply number_to_string_inj.
Qed.

(** X25. The identifier is a function of the clock value and of the
    first nine characters after ["0."] of the random string, and of
    nothing else: the identifiers generated for a list of accepts are
    pairwise distinct exactly when the pairs of clock value and random
    suffix of these accepts are pairwise distinct. *)
Theorem generated_ids_distinct_iff_draws_differ (draws : list (Z * string)) :
  NoDup (map (fun d => (fst d, JS.substring 2 11 (snd d))) draws) <->
  NoDup (map (fun d => generateClientId (fst d) (snd d)) draws).
Proof.
  split.
  - induction draws as [|[now rnd36] rest IH]; simpl; intros H; [constructor|].
    inversion H as [|? ? Hnotin Hrest]; subst.
    constructor; auto.
    intros Hin. apply Hnotin.
    apply in_map_iff in Hin as ([now' rnd36'] & E & Hin). simpl in E.
    apply generateClientId_inj in E as (-> & Er).
    apply in_map_iff. exists (now, rnd36'). simpl. split; auto. now rewrite Er.
  - intros H.
    apply (NoDup_map_inv (fun k => "client_" ++ JS.number_to_string (fst k) ++ "_" ++ snd k)).
    now rewrite map_map.
Qed.

(* ================================================================== *)
(** * The theorems on concrete servers *)

Import Demo.

(** C6 on the registry {A, B, C}: an identifier that is not
    registered. *)
Lemma sendTo_drops_silently_witness :
  Map.get "nonexistent" (clients abc) = None
  /\ sendTo "nonexistent" (systemMessage "m") abc = (Normal tt, abc).
Proof.
  split; [reflexivity|].
  apply sendTo_drops_silently. left. reflexivity.
Defined.

(** C1 as stated fails: an error event alone, on the only connection
    of a server, leaves the connection registered and invokes no
    [handleDisconnect].  The random string is that of [0.123456789]. *)
Lemma error_alone_does_no_cleanup :
  let s := after [ev_connection 1 T "0.4fzzzxjylrx"] in
  let s' := snd (run testAppLogic [ev_error 1 "client_1700000000000_4fzzzxjyl"] s) in
  Map.get "client_1700000000000_4fzzzxjyl" (clients s) = Some 1
  /\ Map.get "client_1700000000000_4fzzzxjyl" (clients s') = Some 1
  /\ disconnects_of "client_1700000000000_4fzzzxjyl" (trace s') = 0.
Proof. vm_compute. auto. Qed.

(** X24 on two connections, of which one closes.  The random strings
    are those of [0.123456789] and [0.1]. *)
Lemma count_witness :
  consistent []
    [ev_connection 1 T "0.4fzzzxjylrx"; ev_connection 2 T "0.3lllllllllm";
     ev_close 1 "client_1700000000000_4fzzzxjyl"] = true
  /\ getClientCount
       (after [ev_connection 1 T "0.4fzzzxjylrx"; ev_connection 2 T "0.3lllllllllm";
               ev_close 1 "client_1700000000000_4fzzzxjyl"]) = 2 - 1.
Proof.
  split; [reflexivity|].
  exact (proj1 (count_is_connects_minus_disconnects testAppLogic
           [ev_connection 1 T "0.4fzzzxjylrx"; ev_connection 2 T "0.3lllllllllm";
            ev_close 1 "client_1700000000000_4fzzzxjyl"] all_open eq_refl)).
Defined.

(** X25 on three accepts with distinct draws. *)
Lemma distinct_draws_witness :
  NoDup (map (fun d => (fst d, JS.substring 2 11 (snd d)))
             [(T, "0.4fzzzxjylrx"); (T, "0.3lllllllllm"); ((T + 1)%Z, "0.4fzzzxjylrx")])
  /\ NoDup (map (fun d => generateClientId (fst d) (snd d))
             [(T, "0.4fzzzxjylrx"); (T, "0.3lllllllllm"); ((T + 1)%Z, "0.4fzzzxjylrx")]).
Proof.
  assert (H : NoDup (map (fun d => (fst d, JS.substring 2 11 (snd d)))
             [(T, "0.4fzzzxjylrx"); (T, "0.3lllllllllm"); ((T + 1)%Z, "0.4fzzzxjylrx")])).
  { repeat constructor; simpl; intuition discriminate. }
  split; [exact H|].
  exact (proj1 (generated_ids_distinct_iff_draws_differ _) H).
Defined.

(** ** Scenarios *)

Example generateClientId_typical :
  generateClientId T "0.k3j9x2m1qzw" = "client_1700000000000_k3j9x2m1q".
Proof. reflexivity. Qed.

(** A short random string, such as that of [0.5]. *)
Example generateClientId_short_random :
  generateClientId 42 "0.i" = "client_42_i".
Proof. reflexivity. Qed.

(** Connections {A, B, C} with B not writable: [broadcastAll] reaches
    A and C. *)
Example broadcastAll_abc :
  let (completion, s') := broadcastAll (systemMessage "m") abc in
  completion = Normal tt
  /\ writes (since abc s') = [(1, "systemMessage m"); (3, "systemMessage m")].
Proof. vm_compute. auto. Qed.

Example broadcastExcept_abc :
  writes (since abc (snd (broadcastExcept "C" (systemMessage "m") abc)))
  = [(1, "systemMessage m")].
Proof. reflexivity. Qed.

(** The count goes 0, 1, 2, 1 as two connections open and one closes. *)
Example count_scenario :
  map (fun events => getClientCount (after events))
      [ [];
        [ev_connection 1 T "0.k3j9x2m1qzw"];
        [ev_connection 1 T "0.k3j9x2m1qzw"; ev_connection 2 T "0.8fh2kd01xcv"];
        [ev_connection 1 T "0.k3j9x2m1qzw"; ev_connection 2 T "0.8fh2kd01xcv";
         ev_close 1 "client_1700000000000_k3j9x2m1q"] ]
  = [0; 1; 2; 1].
Proof. reflexivity. Qed.

(** Two connections; the first sends a chat message; both receive the
    echo after their welcome. *)
Example echo_scenario :
  writes (trace (after
    [ev_connection 1 T "0.k3j9x2m1qzw"; ev_connection 2 T "0.8fh2kd01xcv";
     ev_message 1 "client_1700000000000_k3j9x2m1q" "sendMessage hi"]))
  = [(1, "welcome client_1700000000000_k3j9x2m1q");
     (2, "welcome client_1700000000000_8fh2kd01x");
     (1, "systemMessage echo:hi");
     (2, "systemMessage echo:hi")].
Proof. reflexivity. Qed.

(* ================================================================== *)
(** * Further properties of the server *)

(** ** Lookups in the registry *)

Lemma Map_get_set_same k v m : Map.get k (Map.set k v m) = Some v.
Proof.
  induction m as [|[k' v'] m IH]; simpl.
  - now rewrite String.eqb_refl.
  - destruct (String.eqb k' k) eqn:E; simpl.
    + now rewrite String.eqb_refl.
    + now rewrite E.
Qed.

Lemma Map_get_set_other k k' v m :
  k' <> k -> Map.get k' (Map.set k v m) = Map.get k' m.
Proof.
  intros Hne. induction m as [|[k0 v0] m IH]; simpl.
  - apply String.eqb_neq in Hne. rewrite String.eqb_sym. now rewrite Hne.
  - destruct (String.eqb k0 k) eqn:E; simpl.
    + apply String.eqb_eq in E. subst k0.
      assert (E' : String.eqb k k' = false)
        by (apply String.eqb_neq; congruence).
      now rewrite E'.
    + destruct (String.eqb k0 k'); auto.
Qed.

Lemma Map_get_In k v m : Map.get k m = Some v -> In (k, v) m.
Proof.
  induction m as [|[k' v'] m IH]; simpl; [discriminate|].
  destruct (String.eqb k' k) eqn:E.
  - apply String.eqb_eq in E. intros [= ->]. subst. now left.
  - intros H. right. now apply IH.
Qed.

Lemma Map_get_absent k m :
  existsb (String.eqb k) (Map.keys m) = false -> Map.get k m = None.
Proof.
  induction m as [|[k' v'] m IH]; simpl; auto.
  intros H. apply orb_false_iff in H as (H1 & H2).
  rewrite String.eqb_sym, H1. now apply IH.
Qed.

Lemma Map_keys_set_present k v m :
  existsb (String.eqb k) (Map.keys m) = true ->
  Map.keys (Map.set k v m) = Map.keys m.
Proof.
  induction m as [|[k' v'] m IH]; simpl; [discriminate|].
  destruct (String.eqb k' k) eqn:E.
  - apply String.eqb_eq in E. now subst.
  - rewrite String.eqb_sym, E. simpl. intros H. now rewrite IH.
Qed.

Lemma Map_size_set k v m : Map.size (Map.set k v m) <= S (Map.size m).
Proof.
  unfold Map.size. induction m as [|[k' v'] m IH]; simpl; auto.
  destruct (String.eqb k' k); simpl; lia.
Qed.

Lemma Map_size_delete k m : Map.size (Map.delete k m) <= Map.size m.
Proof. apply filter_length_le. Qed.

Lemma Map_set_NoDup k v m : NoDup (Map.keys m) -> NoDup (Map.keys (Map.set k v m)).
Proof.
  intros H. destruct (existsb (String.eqb k) (Map.keys m)) eqn:E.
  - now rewrite Map_keys_set_present.
  - rewrite Map_keys_set_fresh by assumption.
    unfold Map.keys. rewrite map_app. simpl. apply NoDup_snoc; auto.
    intros Hin. apply existsb_eqb_In in Hin. unfold Map.keys in E. congruence.
Qed.

Lemma Map_delete_NoDup k m : NoDup (Map.keys m) -> NoDup (Map.keys (Map.delete k m)).
Proof. rewrite Map_keys_delete. apply NoDup_filter_out. Qed.

(** ** Targeted send, message and connection listeners *)

Section ListenerTheorems.

Context {host : Host}.
Context {State : Type}.
Variable appLogic : AppLogic State JSValue.
Implicit Types (s : WSServer State) (es : list Effect).

Local Open Scope server_scope.

(** X1. [sendTo(id, m)] to a registered connection whose transport is
    open returns normally after one [JSON.stringify] and one write, of
    the serialized [m], to the transport registered under [id]; the
    registry and the application state are as before. *)
Theorem sendTo_writes_once_to_the_target (clientId : string) (message : ServerMessage)
    (ws : sock) s :
  Map.get clientId (clients s) = Some ws ->
  readyState s ws = OPEN ->
  let (completion, s') := sendTo clientId message s in
  completion = Normal tt
  /\ since s s' = [Stringify message; Send ws (JSON_stringify message)]
  /\ clients s' = clients s
  /\ state s' = state s.
Proof.
  intros Hget Hopen. rewrite sendTo_run, Hget, Hopen. simpl.
  rewrite since_with_effects. auto.
Qed.

(** A frame that [JSON.parse] accepts: the effects of the listener. *)
Lemma on_message_parsed ws clientId data message s :
  JSON_parse data = Some message ->
  let outcome := handleMessage appLogic (state s) clientId message in
  exists es,
    forallb is_output es = true
    /\ on_message (setupClientHandlers appLogic ws clientId) data s
       = (Normal tt,
          with_effects
            (Invoke (onMessage clientId message)
             :: es ++
                (if throws outcome then
                   match Map.get clientId (clients s) with
                   | Some ws' =>
                       if ReadyState_eqb (readyState s ws') OPEN
                       then [Stringify (error "Invalid message format");
                             Send ws' (JSON_stringify (error "Invalid message format"))]
                       else []
                   | None => []
                   end
                 else []))
            (with_state (next_state outcome) s)).
Proof.
  intros Hparse outcome. simpl. unfold try_catch, bind at 1, parse.
  rewrite Hparse. unfold ret.
  destruct (invoke_run (onMessage clientId message)
              (fun st => handleMessage appLogic st clientId message) s)
    as (es & E & Hes).
  exists es. split; auto. rewrite E. fold outcome.
  destruct (throws outcome).
  - rewrite sendTo_run, with_effects_app. reflexivity.
  - now rewrite app_nil_r.
Qed.

(** X2. The message listener lets no exception out: whatever the
    frame and whatever [handleMessage] does, it returns normally, and
    it leaves the registry, the transports and the listener as they
    were. *)
Theorem message_listener_never_throws (ws : sock) (clientId data : string) s :
  let (completion, s') := dispatch appLogic (ev_message ws clientId data) s in
  completion = Normal tt
  /\ clients s' = clients s
  /\ readyState s' = readyState s
  /\ wss s' = wss s.
Proof.
  destruct (on_message_run appLogic ws clientId data s) as (es & st & E & _).
  unfold dispatch. rewrite E. auto.
Qed.

(** X3. A frame that [JSON.parse] accepts is handed to
    [handleMessage], with the identifier of the connection, in exactly
    one invocation, and no other callback is invoked; the application
    state afterwards is the one that invocation leaves. *)
Theorem parsed_frame_reaches_handleMessage_once (ws : sock) (clientId data : string)
    (message : JSValue) s :
  JSON_parse data = Some message ->
  let s' := snd (dispatch appLogic (ev_message ws clientId data) s) in
  invocations (since s s') = [onMessage clientId message]
  /\ state s' = next_state (handleMessage appLogic (state s) clientId message).
Proof.
  intros Hparse.
  destruct (on_message_parsed ws clientId data message s Hparse) as (es & Hes & E).
  unfold dispatch. rewrite E. simpl. rewrite since_with_state. simpl.
  rewrite invocations_app, (output_invocations es Hes). split; auto.
  destruct (throws _); auto.
  destruct (Map.get clientId (clients s)); auto.
  destruct (ReadyState_eqb _ _); auto.
Qed.

(** X4. When [handleMessage] throws on a parsed frame, the exception
    is caught and reported as a parse error: the last write of the
    listener is the message of type [error] with the text
    "Invalid message format", to the sender, provided the sender is
    registered with an open transport. *)
Theorem handler_exception_is_reported_as_invalid_format (ws : sock)
    (clientId data : string) (message : JSValue) s :
  JSON_parse data = Some message ->
  throws (handleMessage appLogic (state s) clientId message) = true ->
  Map.get clientId (clients s) = Some ws ->
  readyState s ws = OPEN ->
  let (completion, s') := dispatch appLogic (ev_message ws clientId data) s in
  completion = Normal tt
  /\ exists earlier,
       writes (since s s')
       = (earlier ++ [(ws, JSON_stringify (error "Invalid message format"))])%list.
Proof.
  intros Hparse Hthrows Hget Hopen.
  destruct (on_message_parsed ws clientId data message s Hparse) as (es & Hes & E).
  unfold dispatch. rewrite E, Hthrows, Hget, Hopen. simpl. split; auto.
  rewrite since_with_state. simpl.
  exists (writes es). rewrite writes_app. reflexivity.
Qed.

(** X5. A connection event registers the accepted socket under the
    generated identifier before it notifies the application: afterwards
    the identifier maps to that socket, every other identifier maps to
    what it mapped to, [handleConnect] is the one callback invoked, and
    the event ends in an uncaught exception exactly when
    [handleConnect] throws. *)
Theorem connection_registers_and_notifies_once (ws : sock) (now : Z) (rnd36 : string) s :
  let clientId := generateClientId now rnd36 in
  let (completion, s') := dispatch appLogic (ev_connection ws now rnd36) s in
  Map.get clientId (clients s') = Some ws
  /\ (forall other, other <> clientId ->
        Map.get other (clients s') = Map.get other (clients s))
  /\ invocations (since s s') = [onConnect clientId]
  /\ state s' = next_state (handleConnect appLogic (state s) clientId)
  /\ completion
     = if throws (handleConnect appLogic (state s) clientId) then Throw else Normal tt.
Proof.
  intros clientId. simpl. unfold modify, bind at 1. fold clientId.
  destruct (invoke_run (onConnect clientId)
              (fun st => handleConnect appLogic st clientId)
              (with_clients (Map.set clientId ws) s))
    as (es & E & Hes).
  rewrite E. simpl. repeat split.
  - apply Map_get_set_same.
  - intros other Hne. now apply Map_get_set_other.
  - rewrite (since_extension s _ (Invoke (onConnect clientId) :: es)) by reflexivity.
    simpl. now rewrite output_invocations.
Qed.

End ListenerTheorems.

(** ** Where the server writes *)

Section WriteTheorems.

Context {host : Host}.
Context {State : Type}.
Variable appLogic : AppLogic State JSValue.
Implicit Types (s : WSServer State) (es : list Effect).

Local Open Scope server_scope.

Lemma In_writes_sends ws d data (entries : Map.t) :
  In (ws, d) (writes (map (fun entry => Send (snd entry) data) entries)) ->
  exists clientId, In (clientId, ws) entries.
Proof.
  rewrite writes_sends. intros H. now apply In_deliveries in H as (_ & H).
Qed.

(** Every write of a helper goes to a registered, open transport. *)
Lemma createHelpers_writes call s :
  exists es,
    createHelpers call s = (Normal tt, with_effects es s)
    /\ forallb is_output es = true
    /\ forall ws d, In (ws, d) (writes es) ->
         readyState s ws = OPEN /\ exists clientId, In (clientId, ws) (clients s).
Proof.
  destruct call as [m | c m | c m]; simpl.
  - eexists. split; [apply broadcastAll_run|]. split; [apply output_sends|].
    simpl. intros ws d H. apply In_writes_sends in H as (k & H).
    apply filter_In in H as (H & Hw). split; eauto.
    now apply ReadyState_eqb_eq.
  - eexists. split; [apply sendTo_run|].
    destruct (Map.get c (clients s)) as [ws'|] eqn:G; [|split; auto; intros ? ? []].
    destruct (ReadyState_eqb (readyState s ws') OPEN) eqn:O; [|split; auto; intros ? ? []].
    split; auto. simpl. intros ws d [[= <- <-]|[]].
    split; [now apply ReadyState_eqb_eq|]. exists c. now apply Map_get_In.
  - eexists. split; [apply broadcastExcept_run|]. split; [apply output_sends|].
    simpl. intros ws d H. apply In_writes_sends in H as (k & H).
    apply filter_In in H as (H & Hw). apply andb_prop in Hw as (_ & Hw).
    split; eauto. now apply ReadyState_eqb_eq.
Qed.

Lemma perform_writes calls s :
  exists es,
    perform createHelpers calls s = (Normal tt, with_effects es s)
    /\ forallb is_output es = true
    /\ forall ws d, In (ws, d) (writes es) ->
         readyState s ws = OPEN /\ exists clientId, In (clientId, ws) (clients s).
Proof.
  revert s. induction calls as [|call rest IH]; intros s; simpl.
  - exists []. unfold ret. rewrite with_effects_nil.
    split; [|split]; auto. intros ? ? [].
  - destruct (createHelpers_writes call s) as (es1 & E1 & O1 & W1).
    destruct (IH (with_effects es1 s)) as (es2 & E2 & O2 & W2).
    exists (es1 ++ es2)%list. unfold bind. rewrite E1, E2, with_effects_app.
    split; [|split]; auto.
    + now rewrite forallb_app, O1, O2.
    + intros ws d H. rewrite writes_app in H. apply in_app_or in H as [H|H];
        [now apply W1 in H | now apply W2 in H].
Qed.

Lemma invoke_writes call (callback : State -> Outcome State) s :
  exists es,
    invoke call callback createHelpers s
    = ((if throws (callback (state s)) then Throw else Normal tt),
       with_effects (Invoke call :: es)
         (with_state (next_state (callback (state s))) s))
    /\ forall ws d, In (ws, d) (writes es) ->
         readyState s ws = OPEN /\ exists clientId, In (clientId, ws) (clients s).
Proof.
  unfold invoke, get_server, bind at 1.
  unfold emit, modify, bind at 1 2.
  destruct (perform_writes (helper_calls (callback (state s)))
              (with_state (next_state (callback (state s))) (with_effect (Invoke call) s)))
    as (es & E & _ & W).
  exists es. split; auto.
  unfold bind. rewrite E.
  replace (with_effects es _)
    with (with_effects (Invoke call :: es)
            (with_state (next_state (callback (state s))) s)).
  - destruct (throws _); reflexivity.
  - unfold with_effects, with_state, with_effect. simpl. now rewrite <- app_assoc.
Qed.

(** One event, with where its writes go. *)
Lemma dispatch_run_writes (e : Event) s :
  exists es st,
    snd (dispatch appLogic e s) = with_effects es (with_state st (world_after e s))
    /\ forall ws d, In (ws, d) (writes es) ->
         readyState (world_after e s) ws = OPEN
         /\ exists clientId, In (clientId, ws) (clients (world_after e s)).
Proof.
  destruct e as [ws0 now rnd36 | ws0 clientId data | ws0 clientId | ws0 clientId | | ws0 rs].
  - simpl. unfold modify, bind at 1.
    destruct (invoke_writes (onConnect (generateClientId now rnd36))
                (fun st => handleConnect appLogic st (generateClientId now rnd36))
                (with_clients (Map.set (generateClientId now rnd36) ws0) s))
      as (es & -> & W).
    eexists _, _. split; [reflexivity|]. simpl.
    intros ws d H. apply W in H. exact H.
  - simpl. unfold try_catch, bind at 1, parse.
    destruct (JSON_parse data) as [message|].
    + unfold ret.
      destruct (invoke_writes (onMessage clientId message)
                  (fun st => handleMessage appLogic st clientId message) s)
        as (es & -> & W).
      destruct (throws _).
      * destruct (createHelpers_writes (SendTo clientId (error "Invalid message format"))
                    (with_effects (Invoke (onMessage clientId message) :: es)
                       (with_state
                          (next_state (handleMessage appLogic (state s) clientId message)) s)))
          as (es2 & E2 & _ & W2).
        simpl in E2. rewrite E2, with_effects_app.
        eexists _, _. split; [reflexivity|]. simpl.
        intros ws d H. rewrite writes_app in H. apply in_app_or in H as [H|H];
          [apply W in H | apply W2 in H]; exact H.
      * eexists _, _. split; [reflexivity|]. simpl.
        intros ws d H. apply W in H. exact H.
    + unfold throw.
      destruct (createHelpers_writes (SendTo clientId (error "Invalid message format")) s)
        as (es2 & E2 & _ & W2).
      simpl in E2. rewrite E2.
      exists es2, (state s). rewrite with_state_same. split; auto.
  - simpl. unfold modify, bind at 1.
    destruct (invoke_writes (onDisconnect clientId)
                (fun st => handleDisconnect appLogic st clientId)
                (with_clients (Map.delete clientId) s))
      as (es & -> & W).
    eexists _, _. split; [reflexivity|]. simpl.
    intros ws d H. apply W in H. exact H.
  - exists [], (state s). simpl. rewrite with_state_same, with_effects_nil.
    split; auto. intros ? ? [].
  - exists [], (state s). simpl. rewrite with_state_same, with_effects_nil.
    split; auto. intros ? ? [].
  - exists [], (state (with_readyState ws0 rs s)).
    rewrite with_state_same, with_effects_nil. split; [reflexivity|]. intros ? ? [].
Qed.

(** Every write of an event goes to a transport that is open and
    registered once the event has been handled. *)
Lemma dispatch_writes (e : Event) s ws d :
  In (ws, d) (writes (since s (snd (dispatch appLogic e s)))) ->
  readyState (snd (dispatch appLogic e s)) ws = OPEN
  /\ exists clientId, In (clientId, ws) (clients (snd (dispatch appLogic e s))).
Proof.
  destruct (dispatch_run_writes e s) as (es & st & -> & W).
  rewrite (since_extension s _ es) by (destruct e; reflexivity).
  intros H. apply W in H. exact H.
Qed.

(** X6. Whatever the event and whatever the application logic does,
    the server writes only to transports that are open and registered:
    every write made while an event is handled goes to a socket that
    is in the registry, with [readyState] [OPEN], when the event has
    been handled. *)
Theorem writes_go_to_registered_open_transports (e : Event) s :
  let s' := snd (dispatch appLogic e s) in
  forall ws d,
    In (ws, d) (writes (since s s')) ->
    readyState s' ws = OPEN /\ exists clientId, In (clientId, ws) (clients s').
Proof. intros s' ws d. apply dispatch_writes. Qed.

(** X7. The connection that closes is not written to while its
    disconnection is handled: the identifier is deleted before
    [handleDisconnect] runs, so, when the socket is registered under
    no other identifier, nothing [handleDisconnect] sends or
    broadcasts reaches it. *)
Theorem closing_connection_is_not_notified (ws : sock) (clientId : string) s :
  (forall other, In (other, ws) (clients s) -> other = clientId) ->
  let s' := snd (dispatch appLogic (ev_close ws clientId) s) in
  ~ In ws (map fst (writes (since s s'))).
Proof.
  intros Honly s' Hin.
  apply in_map_iff in Hin as ([ws' d] & E & Hin). simpl in E. subst ws'.
  apply dispatch_writes in Hin as (_ & other & Hreg).
  destruct (dispatch_run appLogic (ev_close ws clientId) s) as (es & st & E & _).
  rewrite E in Hreg. simpl in Hreg.
  apply filter_In in Hreg as (Hreg & Hne). simpl in Hne.
  apply Honly in Hreg. subst other. now rewrite String.eqb_refl in Hne.
Qed.

End WriteTheorems.

(** ** Registry bounds, helper frames and shutdown *)

Section RegistryTheorems.

Context {host : Host}.
Context {State : Type}.
Variable appLogic : AppLogic State JSValue.
Implicit Types (s : WSServer State) (es : list Effect).

Local Open Scope server_scope.

Lemma dispatch_bounded e s :
  NoDup (Map.keys (clients s)) /\ getClientCount s <= connects (trace s) ->
  NoDup (Map.keys (clients (snd (dispatch appLogic e s))))
  /\ getClientCount (snd (dispatch appLogic e s))
     <= connects (trace (snd (dispatch appLogic e s))).
Proof.
  intros (Hnd & Hle).
  destruct (dispatch_run appLogic e s) as (es & st & -> & Hes).
  unfold getClientCount, connects in *.
  cbn [with_effects with_state clients trace].
  rewrite invocations_app, filter_app, length_app, Hes.
  destruct e as [ws now rnd36 | ws clientId data | ws clientId | ws clientId | | ws rs];
    cbn [world_after with_clients with_readyState clients callback_of].
  - split; [now apply Map_set_NoDup|].
    pose proof (Map_size_set (generateClientId now rnd36) ws (clients s)).
    simpl. lia.
  - split; auto. destruct (JSON_parse data); simpl; lia.
  - split; [now apply Map_delete_NoDup|].
    pose proof (Map_size_delete clientId (clients s)). simpl. lia.
  - split; auto. simpl. lia.
  - split; auto. simpl. lia.
  - split; auto. simpl. lia.
Qed.

(** X8. With no assumption on the events (identifiers may collide,
    close events may be spurious): after any list of events handled by
    a new server, no identifier is registered twice and
    [getClientCount()] is at most the number of [handleConnect]
    invocations made so far. *)
Theorem count_never_exceeds_connects (events : list Event)
    (transports : sock -> ReadyState) :
  let s' := snd (run appLogic events (constructor appLogic transports)) in
  NoDup (Map.keys (clients s'))
  /\ getClientCount s' <= connects (trace s').
Proof.
  cbv zeta.
  assert (H : forall s,
             NoDup (Map.keys (clients s)) /\ getClientCount s <= connects (trace s) ->
             NoDup (Map.keys (clients (snd (run appLogic events s))))
             /\ getClientCount (snd (run appLogic events s))
                <= connects (trace (snd (run appLogic events s)))).
  { induction events as [|e rest IH]; intros s Hs; simpl; auto.
    pose proof (dispatch_bounded e s Hs) as Hs1.
    unfold bind. destruct (dispatch appLogic e s) as [[[]|] s1]; simpl in *; auto. }
  apply H. split; [constructor | apply Nat.le_0_l].
Qed.

(** X9. A routing helper does nothing but serialize and write: each
    of the three returns normally, invokes no callback of the
    application logic, asks no transport to close, and leaves the
    application state, the transports and the listener as they were. *)
Theorem helpers_only_serialize_and_write (call : HelperCall) s :
  let (completion, s') := createHelpers call s in
  completion = Normal tt
  /\ forallb is_output (since s s') = true
  /\ invocations (since s s') = []
  /\ state s' = state s
  /\ readyState s' = readyState s
  /\ wss s' = wss s.
Proof.
  destruct (createHelpers_run call s) as (es & -> & Hes).
  rewrite since_with_effects. repeat split; auto.
  now apply output_invocations.
Qed.

(** X10. Excluding an identifier that is not registered excludes
    nobody: [broadcastExcept(id, m)] then does exactly what
    [broadcastAll(m)] does. *)
Theorem broadcastExcept_unregistered_is_broadcastAll (excludeClientId : string)
    (message : ServerMessage) s :
  Map.get excludeClientId (clients s) = None ->
  broadcastExcept excludeClientId message s = broadcastAll message s.
Proof.
  intros Hget. rewrite broadcastExcept_run, broadcastAll_run.
  do 4 f_equal. apply filter_ext_in. intros [k v] Hin.
  unfold not_excluded. simpl.
  destruct (String.eqb k excludeClientId) eqn:E; auto.
  apply String.eqb_eq in E. subst k. exfalso.
  clear -Hget Hin. induction (clients s) as [|[k' v'] m IH]; simpl in *; auto.
  destruct (String.eqb k' excludeClientId) eqn:E; [discriminate|].
  destruct Hin as [[= -> ->]|Hin]; auto.
  now rewrite String.eqb_refl in E.
Qed.

Lemma closed_transports (entries : Map.t) s :
  (forall rs, close_transition rs <> OPEN) ->
  forall ws,
    In ws (map snd entries) ->
    readyState (snd (visit_all (fun ws _ => ws_close ws) entries s)) ws <> OPEN.
Proof.
  intros Hclose.
  assert (Hkeep : forall entries s ws,
             readyState s ws <> OPEN ->
             readyState (snd (visit_all (fun ws _ => ws_close ws) entries s)) ws <> OPEN).
  { clear entries s. induction entries as [|[k v] rest IH]; intros s ws H; simpl; auto.
    unfold bind at 1. rewrite ws_close_run. apply IH. simpl.
    destruct (Nat.eqb ws v); auto. }
  revert s. induction entries as [|[k v] rest IH]; intros s ws Hin; simpl in *.
  - destruct Hin.
  - unfold bind at 1. rewrite ws_close_run.
    destruct Hin as [<-|Hin]; [|now apply IH].
    apply Hkeep. simpl. rewrite Nat.eqb_refl. apply Hclose.
Qed.

Lemma close_snd s :
  snd (close s)
  = with_effect CloseListener
      (with_wss false (snd (visit_all (fun ws _ => ws_close ws) (clients s) s))).
Proof.
  unfold close, clients_forEach, get_server, bind at 1 2.
  destruct (close_every_transport (clients s) s) as (s1 & E & _).
  rewrite E. reflexivity.
Qed.

End RegistryTheorems.

(* ================================================================== *)
(** * Properties of the chat application *)

(** ** The [Map] of users *)

Lemma Dict_get_set_same {V} k (v : V) m : Dict.get k (Dict.set k v m) = Some v.
Proof.
  induction m as [|[k' v'] m IH]; simpl.
  - now rewrite String.eqb_refl.
  - destruct (String.eqb k' k) eqn:E; simpl.
    + now rewrite String.eqb_refl.
    + now rewrite E.
Qed.

Lemma Dict_get_set_other {V} k k' (v : V) m :
  k' <> k -> Dict.get k' (Dict.set k v m) = Dict.get k' m.
Proof.
  intros Hne. induction m as [|[k0 v0] m IH]; simpl.
  - apply String.eqb_neq in Hne. rewrite String.eqb_sym. now rewrite Hne.
  - destruct (String.eqb k0 k) eqn:E; simpl.
    + apply String.eqb_eq in E. subst k0.
      assert (E' : String.eqb k k' = false)
        by (apply String.eqb_neq; congruence).
      now rewrite E'.
    + destruct (String.eqb k0 k'); auto.
Qed.

Lemma Dict_keys_set_present {V} k (v : V) m :
  Dict.get k m <> None -> Dict.keys (Dict.set k v m) = Dict.keys m.
Proof.
  induction m as [|[k' v'] m IH]; simpl; [congruence|].
  destruct (String.eqb k' k) eqn:E.
  - apply String.eqb_eq in E. now subst.
  - simpl. intros H. now rewrite IH.
Qed.

Lemma Dict_set_absent {V} k (v : V) m :
  Dict.get k m = None -> Dict.set k v m = (m ++ [(k, v)])%list.
Proof.
  induction m as [|[k' v'] m IH]; simpl; auto.
  destruct (String.eqb k' k); [discriminate|].
  intros H. now rewrite IH.
Qed.

Lemma Dict_delete_absent {V} k (m : Dict.t V) :
  Dict.get k m = None -> Dict.delete k m = m.
Proof.
  unfold Dict.delete. induction m as [|[k' v'] m IH]; simpl; auto.
  destruct (String.eqb k' k); [discriminate|].
  simpl. intros H. now rewrite IH.
Qed.

Lemma Dict_delete_set_absent {V} k (v : V) m :
  Dict.get k m = None -> Dict.delete k (Dict.set k v m) = m.
Proof.
  intros H. rewrite Dict_set_absent by assumption.
  unfold Dict.delete. rewrite filter_app. simpl. rewrite String.eqb_refl. simpl.
  rewrite app_nil_r. now apply Dict_delete_absent.
Qed.

Lemma Dict_keys_delete {V} k (m : Dict.t V) :
  Dict.keys (Dict.delete k m)
  = filter (fun k' => negb (String.eqb k' k)) (Dict.keys m).
Proof.
  induction m as [|[k' v] m IH]; simpl; auto.
  destruct (String.eqb k' k); simpl; now rewrite ?IH.
Qed.

(** ** The callbacks *)

(** An outcome without a [sendTo]. *)
Ltac quiet_outcome :=
  simpl; intuition (try discriminate; try lia; auto).

(** An outcome whose one call is an error sent to the sender. *)
Ltac error_outcome :=
  simpl;
  split; [lia|];
  split; [intros ? ? [E|[]]; now inversion E|];
  split; [intros ? ? [E|[]]; discriminate|];
  split; [reflexivity | discriminate].

Section ChatTheorems.

Variable trim : string -> string.
Implicit Types (state : ChatState) (message : Value.t) (now : Z).

(** [push] then [shift] when the array got longer than [n]. *)
Lemma push_then_shift {A} (h : list A) (r : A) (n : nat) :
  0 < n ->
  (if Nat.ltb n (List.length (h ++ [r])) then List.tl (h ++ [r]) else h ++ [r])%list
  = ((if Nat.leb n (List.length h) then List.tl h else h) ++ [r])%list.
Proof.
  intros Hn. rewrite length_app. cbn [List.length].
  destruct (Nat.ltb_spec n (List.length h + 1)), (Nat.leb_spec n (List.length h));
    try lia; auto.
  destruct h; cbn in *; [lia | reflexivity].
Qed.

(** The callbacks on messages that have the shape of a
    [ClientMessage]. *)
Lemma handleMessage_typed now state (clientId : string) (m : ClientMessage) :
  Chat.handleMessage trim now state clientId (Value.of_ClientMessage m)
  = match Dict.get clientId (users state) with
    | None => Chat.returns state []
    | Some _ =>
        match m with
        | setUsername _ =>
            Chat.handleSetUsername trim state clientId (Value.of_ClientMessage m)
        | sendMessage _ =>
            Chat.handleSendMessage trim now state clientId (Value.of_ClientMessage m)
        end
    end.
Proof.
  unfold Chat.handleMessage.
  destruct (Dict.get clientId (users state)); auto. now destruct m.
Qed.

Lemma handleSendMessage_typed now state (clientId x : string) (user : User.t) :
  Dict.get clientId (users state) = Some user ->
  Chat.handleSendMessage trim now state clientId (Value.of_ClientMessage (sendMessage x))
  = if String.eqb (trim x) "" then
      Chat.returns state [SendTo clientId (error "Message cannot be empty")]
    else if Nat.ltb 500 (String.length (trim x)) then
      Chat.returns state
        [SendTo clientId (error "Message too long (max 500 characters)")]
    else
      let recorded := {| username := User.username user; text := trim x;
                         timestamp := now; clientId := clientId |} in
      Chat.returns
        {| users := users state;
           messageHistory :=
             if Nat.ltb 100 (List.length (messageHistory state ++ [recorded]))
             then List.tl (messageHistory state ++ [recorded])
             else (messageHistory state ++ [recorded])%list |}
        [BroadcastAll (chatMessage recorded)].
Proof. intros Hget. unfold Chat.handleSendMessage. now rewrite Hget. Qed.

Lemma handleSetUsername_typed state (clientId u : string) (user : User.t) :
  Dict.get clientId (users state) = Some user ->
  Chat.handleSetUsername trim state clientId (Value.of_ClientMessage (setUsername u))
  = let newUsername := if String.eqb (trim u) "" then "Anonymous" else trim u in
    Chat.returns
      {| users :=
           Dict.set clientId
             {| User.clientId := User.clientId user;
                User.username := newUsername;
                User.connectedAt := User.connectedAt user |}
             (users state);
         messageHistory := messageHistory state |}
      (if String.eqb (User.username user) "Anonymous"
          && negb (String.eqb newUsername "Anonymous")
       then [BroadcastAll (userJoined newUsername)]
       else []).
Proof. intros Hget. unfold Chat.handleSetUsername. now rewrite Hget. Qed.

(** X12. A chat message that passes validation: from a known user, a
    [sendMessage] whose trimmed text is not empty and has at most 500
    characters is recorded last in the history, under the user's
    current name, with the trimmed text, the clock value and the
    sender's identifier; the oldest message is dropped when the
    history already held 100; the same record is broadcast to all, and
    the users are untouched. *)
Theorem accepted_message_is_recorded_and_broadcast now state (clientId x : string)
    (user : User.t) :
  Dict.get clientId (users state) = Some user ->
  trim x <> "" ->
  String.length (trim x) <= 500 ->
  let recorded := {| username := User.username user; text := trim x;
                     timestamp := now; clientId := clientId |} in
  Chat.handleMessage trim now state clientId (Value.of_ClientMessage (sendMessage x))
  = Chat.returns
      {| users := users state;
         messageHistory :=
           ((if Nat.leb 100 (List.length (messageHistory state))
             then List.tl (messageHistory state)
             else messageHistory state) ++ [recorded])%list |}
      [BroadcastAll (chatMessage recorded)].
Proof.
  intros Hget Hne Hlen recorded.
  rewrite handleMessage_typed, Hget, (handleSendMessage_typed _ _ _ _ user Hget).
  apply String.eqb_neq in Hne. rewrite Hne.
  assert (L : Nat.ltb 500 (String.length (trim x)) = false)
    by (apply Nat.ltb_ge; lia).
  rewrite L. cbv zeta. fold recorded. unfold Chat.returns. do 2 f_equal.
  apply push_then_shift. lia.
Qed.

(** X13. A chat message that fails validation changes nothing and is
    answered to its sender only: an empty trimmed text with
    "Message cannot be empty", a trimmed text of more than 500
    characters with "Message too long (max 500 characters)"; nothing is
    broadcast and nothing is recorded. *)
Theorem rejected_message_is_answered_to_sender_only now state (clientId x : string)
    (user : User.t) :
  Dict.get clientId (users state) = Some user ->
  trim x = "" \/ 500 < String.length (trim x) ->
  Chat.handleMessage trim now state clientId (Value.of_ClientMessage (sendMessage x))
  = Chat.returns state
      [SendTo clientId
         (error (if String.eqb (trim x) "" then "Message cannot be empty"
                 else "Message too long (max 500 characters)"))].
Proof.
  intros Hget H.
  rewrite handleMessage_typed, Hget, (handleSendMessage_typed _ _ _ _ user Hget).
  destruct (String.eqb (trim x) "") eqn:E; auto.
  destruct H as [H|H].
  - apply String.eqb_neq in E. contradiction.
  - apply Nat.ltb_lt in H. now rewrite H.
Qed.

(** X14. A message from an identifier that is not among the users is
    ignored whatever it is, [null] included: no helper call, no change
    of state, no exception.  The same holds for the disconnection of
    such an identifier. *)
Theorem unknown_client_is_ignored now state (clientId : string) message :
  Dict.get clientId (users state) = None ->
  Chat.handleMessage trim now state clientId message = Chat.returns state []
  /\ Chat.handleDisconnect state clientId = Chat.returns state [].
Proof.
  intros Hget. unfold Chat.handleMessage, Chat.handleDisconnect.
  now rewrite Hget.
Qed.

(** X15. Renaming: a [setUsername] from a known user stores the
    trimmed name, or "Anonymous" when the trimmed name is empty,
    keeping the user's place, identifier and connection time; no other
    user and no message is touched; [userJoined] is broadcast exactly
    when the user was "Anonymous" and no longer is, so a later change
    of name is announced to nobody. *)
Theorem setUsername_renames_and_announces_first_name now state (clientId u : string)
    (user : User.t) :
  Dict.get clientId (users state) = Some user ->
  let newUsername := if String.eqb (trim u) "" then "Anonymous" else trim u in
  let outcome :=
    Chat.handleMessage trim now state clientId (Value.of_ClientMessage (setUsername u)) in
  throws outcome = false
  /\ Dict.get clientId (users (next_state outcome))
     = Some {| User.clientId := User.clientId user;
               User.username := newUsername;
               User.connectedAt := User.connectedAt user |}
  /\ (forall other, other <> clientId ->
        Dict.get other (users (next_state outcome)) = Dict.get other (users state))
  /\ Dict.keys (users (next_state outcome)) = Dict.keys (users state)
  /\ messageHistory (next_state outcome) = messageHistory state
  /\ helper_calls outcome
     = if String.eqb (User.username user) "Anonymous"
          && negb (String.eqb newUsername "Anonymous")
       then [BroadcastAll (userJoined newUsername)]
       else [].
Proof.
  intros Hget newUsername outcome.
  unfold outcome.
  rewrite handleMessage_typed, Hget, (handleSetUsername_typed _ _ _ user Hget).
  cbv zeta. fold newUsername. simpl. repeat split.
  - apply Dict_get_set_same.
  - intros other Hne. now apply Dict_get_set_other.
  - apply Dict_keys_set_present. congruence.
Qed.

(** The shape of every outcome of [handleMessage]. *)
Lemma handleMessage_shape now state (clientId : string) message :
  let outcome := Chat.handleMessage trim now state clientId message in
  List.length (helper_calls outcome) <= 1
  /\ (forall target m,
        In (SendTo target m) (helper_calls outcome) ->
        target = clientId /\ message_type m = "error")
  /\ (forall excluded m, ~ In (BroadcastExcept excluded m) (helper_calls outcome))
  /\ Dict.keys (users (next_state outcome)) = Dict.keys (users state)
  /\ (throws outcome = true ->
        next_state outcome = state /\ helper_calls outcome = []).
Proof.
  cbv zeta. unfold Chat.handleMessage.
  destruct (Dict.get clientId (users state)) as [user|] eqn:Hget; [|quiet_outcome].
  destruct (Value.get message "type") as [type|]; [|quiet_outcome].
  destruct (Value.is_string type "setUsername").
  - unfold Chat.handleSetUsername. rewrite Hget.
    destruct (Chat.trimmed_field trim message "username") as [t|]; [|quiet_outcome].
    cbv zeta. cbn [Chat.returns next_state helper_calls throws users].
    rewrite Dict_keys_set_present by congruence.
    destruct (_ && _); quiet_outcome.
  - destruct (Value.is_string type "sendMessage").
    + unfold Chat.handleSendMessage. rewrite Hget.
      destruct (Chat.trimmed_field trim message "text") as [t|]; [|quiet_outcome].
      destruct (String.eqb t ""); [error_outcome|].
      destruct (Nat.ltb 500 (String.length t)); [error_outcome|].
      cbv zeta. cbn [Chat.returns next_state helper_calls throws users].
      quiet_outcome.
    + error_outcome.
Qed.

(** X16. What [handleMessage] never does: whatever the message, it
    makes at most one helper call; a [sendTo] it makes is an error
    addressed to the sender; it never uses [broadcastExcept]; it never
    adds or removes a user; and when it throws it has changed nothing
    and called nothing. *)
Theorem handleMessage_answers_only_the_sender now state (clientId : string) message :
  let outcome := Chat.handleMessage trim now state clientId message in
  List.length (helper_calls outcome) <= 1
  /\ (forall target m,
        In (SendTo target m) (helper_calls outcome) ->
        target = clientId /\ message_type m = "error")
  /\ (forall excluded m, ~ In (BroadcastExcept excluded m) (helper_calls outcome))
  /\ Dict.keys (users (next_state outcome)) = Dict.keys (users state)
  /\ (throws outcome = true ->
        next_state outcome = state /\ helper_calls outcome = []).
Proof. apply handleMessage_shape. Qed.

(** A request without a payload. *)
Lemma handleMessage_without_payload now state (clientId : string) (user : User.t)
    (kind : string) :
  Dict.get clientId (users state) = Some user ->
  kind = "sendMessage" \/ kind = "setUsername" ->
  Chat.handleMessage trim now state clientId (Value.object [("type", Value.str kind)])
  = Chat.type_error state.
Proof.
  intros Hget [-> | ->]; unfold Chat.handleMessage; rewrite Hget; simpl.
  - unfold Chat.handleSendMessage. now rewrite Hget.
  - unfold Chat.handleSetUsername. now rewrite Hget.
Qed.

(** X17. The callbacks never throw on a message that has the shape of
    a [ClientMessage], whoever sends it; and, for a known user, a
    [sendMessage] or [setUsername] without a payload makes
    [handleMessage] throw before it changed or sent anything. *)
Theorem typed_messages_never_throw now state (clientId : string) (m : ClientMessage) :
  throws (Chat.handleMessage trim now state clientId (Value.of_ClientMessage m)) = false
  /\ (forall user kind,
        Dict.get clientId (users state) = Some user ->
        kind = "sendMessage" \/ kind = "setUsername" ->
        Chat.handleMessage trim now state clientId
          (Value.object [("type", Value.str kind)])
        = Chat.type_error state).
Proof.
  split.
  - rewrite handleMessage_typed.
    destruct (Dict.get clientId (users state)) as [user|] eqn:Hget; auto.
    destruct m as [u|x].
    + now rewrite (handleSetUsername_typed _ _ _ user Hget).
    + rewrite (handleSendMessage_typed _ _ _ _ user Hget).
      destruct (String.eqb (trim x) ""); auto.
      destruct (Nat.ltb 500 (String.length (trim x))); auto.
  - intros user kind. apply handleMessage_without_payload.
Qed.

(** X18. Connecting and then disconnecting an identifier that was not
    among the users gives back the state there was; the connection
    sends one [welcome] to the new identifier, the disconnection
    broadcasts that "Anonymous" left. *)
Theorem connect_then_disconnect_restores_the_state now state (clientId : string) :
  Dict.get clientId (users state) = None ->
  let connected := Chat.handleConnect now state clientId in
  let disconnected := Chat.handleDisconnect (next_state connected) clientId in
  helper_calls connected = [SendTo clientId (welcome clientId)]
  /\ next_state disconnected = state
  /\ helper_calls disconnected = [BroadcastAll (userLeft "Anonymous")].
Proof.
  intros Hget. cbv zeta. unfold Chat.handleDisconnect, Chat.handleConnect. simpl.
  rewrite Dict_get_set_same. simpl.
  rewrite Dict_delete_set_absent by assumption.
  destruct state. auto.
Qed.

(** What every stored message satisfies. *)
Lemma history_step now state (clientId : string) message :
  let state' := next_state (Chat.handleMessage trim now state clientId message) in
  messageHistory state' = messageHistory state
  \/ exists recorded,
       text recorded <> "" /\ String.length (text recorded) <= 500
       /\ messageHistory state'
          = (if Nat.ltb 100 (List.length (messageHistory state ++ [recorded]))
             then List.tl (messageHistory state ++ [recorded])
             else messageHistory state ++ [recorded])%list.
Proof.
  cbv zeta. unfold Chat.handleMessage.
  destruct (Dict.get clientId (users state)) as [user|] eqn:Hget; auto.
  destruct (Value.get message "type") as [type|]; auto.
  destruct (Value.is_string type "setUsername").
  - unfold Chat.handleSetUsername. rewrite Hget.
    destruct (Chat.trimmed_field trim message "username"); auto.
  - destruct (Value.is_string type "sendMessage"); auto.
    unfold Chat.handleSendMessage. rewrite Hget.
    destruct (Chat.trimmed_field trim message "text") as [t|]; auto.
    destruct (String.eqb t "") eqn:E; auto.
    destruct (Nat.ltb 500 (String.length t)) eqn:L; auto.
    right. eexists {| username := _; text := t; timestamp := _; clientId := _ |}.
    simpl. repeat split.
    + now apply String.eqb_neq.
    + apply Nat.ltb_ge in L. lia.
Qed.

(** X19. The history is bounded and clean: if it holds at most 100
    messages, each with a text that is not empty and has at most 500
    characters, then it still does after [handleMessage], whatever the
    message and the sender; [handleConnect] and [handleDisconnect] do
    not touch it. *)
Theorem history_stays_bounded_and_valid now state (clientId : string) message :
  List.length (messageHistory state) <= 100 ->
  Forall (fun m => text m <> "" /\ String.length (text m) <= 500)
         (messageHistory state) ->
  let state' := next_state (Chat.handleMessage trim now state clientId message) in
  List.length (messageHistory state') <= 100
  /\ Forall (fun m => text m <> "" /\ String.length (text m) <= 500)
            (messageHistory state')
  /\ messageHistory (next_state (Chat.handleConnect now state clientId))
     = messageHistory state
  /\ messageHistory (next_state (Chat.handleDisconnect state clientId))
     = messageHistory state.
Proof.
  intros Hlen Hall state'.
  assert (Hrest : messageHistory (next_state (Chat.handleConnect now state clientId))
                  = messageHistory state
                  /\ messageHistory (next_state (Chat.handleDisconnect state clientId))
                     = messageHistory state).
  { split; auto. unfold Chat.handleDisconnect.
    destruct (Dict.get clientId (users state)); auto. }
  destruct (history_step now state clientId message) as [E | (recorded & Hne & Hle & E)];
    fold state' in E; rewrite E.
  - tauto.
  - assert (Hall' : Forall (fun m => text m <> "" /\ String.length (text m) <= 500)
                      (messageHistory state ++ [recorded])).
    { apply Forall_app. split; auto. }
    rewrite length_app in *. simpl in *.
    destruct (Nat.ltb 100 (List.length (messageHistory state) + 1)) eqn:L.
    + split; [|split; [|exact Hrest]].
      * destruct (messageHistory state); simpl in *; [lia|].
        rewrite length_app. simpl. lia.
      * destruct (messageHistory state ++ [recorded])%list; simpl; auto.
        now inversion Hall'.
    + apply Nat.ltb_ge in L. rewrite length_app. simpl. tauto.
Qed.

End ChatTheorems.

(** ** The chat application on the server *)

Section EventState.

Context {host : Host}.
Context {State : Type}.
Variable appLogic : AppLogic State JSValue.
Implicit Types (s : WSServer State).

Local Open Scope server_scope.

(** A callback's completion and the helper calls it made. *)
Lemma invoke_calls call (callback : State -> Outcome State) s :
  invoke call callback createHelpers s
  = ((if throws (callback (state s)) then Throw else Normal tt),
     snd (perform createHelpers (helper_calls (callback (state s)))
            (with_state (next_state (callback (state s)))
               (with_effect (Invoke call) s)))).
Proof.
  unfold invoke, get_server, bind at 1.
  unfold emit, modify, bind at 1 2.
  destruct (perform_run (helper_calls (callback (state s)))
              (with_state (next_state (callback (state s))) (with_effect (Invoke call) s)))
    as (es & E & _).
  unfold bind. rewrite E. simpl. destruct (throws _); reflexivity.
Qed.

(** The application state after an event. *)
Lemma dispatch_state e s :
  state (snd (dispatch appLogic e s))
  = match e with
    | ev_connection _ now rnd36 =>
        next_state (handleConnect appLogic (state s) (generateClientId now rnd36))
    | ev_message _ clientId data =>
        match JSON_parse data with
        | Some message => next_state (handleMessage appLogic (state s) clientId message)
        | None => state s
        end
    | ev_close _ clientId => next_state (handleDisconnect appLogic (state s) clientId)
    | _ => state s
    end.
Proof.
  destruct e as [ws now rnd36 | ws clientId data | ws clientId | ws clientId | | ws rs];
    try reflexivity.
  - simpl. unfold modify, bind at 1.
    destruct (invoke_run (onConnect (generateClientId now rnd36))
                (fun st => handleConnect appLogic st (generateClientId now rnd36))
                (with_clients (Map.set (generateClientId now rnd36) ws) s))
      as (es & -> & _).
    reflexivity.
  - destruct (JSON_parse data) as [message|] eqn:P.
    + destruct (on_message_parsed appLogic ws clientId data message s P) as (es & _ & E).
      unfold dispatch. rewrite E. reflexivity.
    + simpl. unfold try_catch, bind at 1, parse. rewrite P. unfold throw.
      now rewrite sendTo_run.
  - simpl. unfold modify, bind at 1.
    destruct (invoke_run (onDisconnect clientId)
                (fun st => handleDisconnect appLogic st clientId)
                (with_clients (Map.delete clientId) s))
      as (es & -> & _).
    reflexivity.
Qed.

(** A parsed frame: the callback, its helper calls, and the error
    reply when the callback threw. *)
Lemma on_message_calls ws clientId data message s :
  JSON_parse data = Some message ->
  dispatch appLogic (ev_message ws clientId data) s
  = let outcome := handleMessage appLogic (state s) clientId message in
    let s1 :=
      snd (perform createHelpers (helper_calls outcome)
             (with_state (next_state outcome)
                (with_effect (Invoke (onMessage clientId message)) s))) in
    if throws outcome
    then sendTo clientId (error "Invalid message format") s1
    else (Normal tt, s1).
Proof.
  intros Hparse. simpl. unfold try_catch, bind at 1, parse. rewrite Hparse.
  unfold ret. rewrite invoke_calls. destruct (throws _); reflexivity.
Qed.

Lemma on_connection_calls ws now rnd36 s :
  dispatch appLogic (ev_connection ws now rnd36) s
  = let clientId := generateClientId now rnd36 in
    let registered := with_clients (Map.set clientId ws) s in
    let outcome := handleConnect appLogic (state s) clientId in
    ((if throws outcome then Throw else Normal tt),
     snd (perform createHelpers (helper_calls outcome)
            (with_state (next_state outcome)
               (with_effect (Invoke (onConnect clientId)) registered)))).
Proof.
  simpl. unfold modify, bind at 1. now rewrite invoke_calls.
Qed.

Lemma dispatch_clients e s :
  clients (snd (dispatch appLogic e s)) = clients (world_after e s).
Proof. destruct (dispatch_run appLogic e s) as (es & st & -> & _). reflexivity. Qed.

End EventState.

Lemma Dict_get_keys {V} k (m : Dict.t V) :
  Dict.get k m = None <-> existsb (String.eqb k) (Dict.keys m) = false.
Proof.
  induction m as [|[k' v] m IH]; simpl; [tauto|].
  rewrite (String.eqb_sym k k'). destruct (String.eqb k' k); simpl; [|exact IH].
  split; discriminate.
Qed.

Lemma Dict_keys_set {V} k (v : V) m :
  Dict.keys (Dict.set k v m)
  = if existsb (String.eqb k) (Dict.keys m) then Dict.keys m
    else (Dict.keys m ++ [k])%list.
Proof.
  destruct (existsb (String.eqb k) (Dict.keys m)) eqn:E.
  - apply Dict_keys_set_present. intros H. apply Dict_get_keys in H. congruence.
  - apply Dict_get_keys in E. rewrite Dict_set_absent by assumption.
    unfold Dict.keys. now rewrite map_app.
Qed.

Lemma Map_keys_set_cases k v m :
  Map.keys (Map.set k v m)
  = if existsb (String.eqb k) (Map.keys m) then Map.keys m
    else (Map.keys m ++ [k])%list.
Proof.
  destruct (existsb (String.eqb k) (Map.keys m)) eqn:E.
  - now apply Map_keys_set_present.
  - rewrite Map_keys_set_fresh by assumption. unfold Map.keys. now rewrite map_app.
Qed.

Section ChatOnServer.

Variable json_parse : string -> option Value.t.
Variable json_stringify : ServerMessage -> string.
Variable throwing : ReadyState -> bool.
Variable closing : ReadyState -> ReadyState.
Variable trim : string -> string.
Variable clock : nat -> Z.

Local Set Warnings "-notation-for-abbreviation".
Local Notation H := (json_host json_parse json_stringify throwing closing).
Local Notation logic :=
  (Chat.chatAppLogic trim clock : AppLogic Chat.Clocked (@JSValue H)).

Implicit Types (s : WSServer (host := H) Chat.Clocked).

Lemma users_follow_registry e s :
  Dict.keys (users (Chat.chat (state s))) = Map.keys (clients s) ->
  Dict.keys (users (Chat.chat (state (snd (dispatch logic e s)))))
  = Map.keys (clients (snd (dispatch logic e s))).
Proof.
  intros Hkeys. rewrite dispatch_state, dispatch_clients.
  destruct e as [ws now rnd36 | ws clientId data | ws clientId | ws clientId | | ws rs];
    simpl; auto.
  - now rewrite Dict_keys_set, Map_keys_set_cases, Hkeys.
  - destruct (json_parse data) as [message|]; auto. simpl.
    destruct (handleMessage_shape trim (clock (Chat.callbacks (state s)))
                (Chat.chat (state s)) clientId message) as (_ & _ & _ & K & _).
    now rewrite K.
  - rewrite Map_keys_delete, <- Hkeys. unfold Chat.handleDisconnect.
    destruct (Dict.get clientId (users (Chat.chat (state s)))) eqn:G; simpl.
    + apply Dict_keys_delete.
    + symmetry. apply filter_out_absent. intros Hin.
      apply existsb_eqb_In in Hin. apply Dict_get_keys in G. congruence.
Qed.

(** X20. The users of the chat are the registered connections: after
    any list of events handled by a new server that runs the chat
    application, the identifiers of the users are the identifiers of
    the registry, in the same order. *)
Theorem users_mirror_the_registry (events : list Event)
    (transports : sock -> ReadyState) :
  let s' := snd (run logic events (constructor logic transports)) in
  Dict.keys (users (Chat.chat (state s'))) = Map.keys (clients s').
Proof.
  cbv zeta.
  assert (G : forall s,
             Dict.keys (users (Chat.chat (state s))) = Map.keys (clients s) ->
             Dict.keys (users (Chat.chat (state (snd (run logic events s)))))
             = Map.keys (clients (snd (run logic events s)))).
  { induction events as [|e rest IH]; intros s Hs; simpl; auto.
    pose proof (users_follow_registry e s Hs) as Hs1.
    unfold bind. destruct (dispatch logic e s) as [[[]|] s1]; simpl in *; auto. }
  apply G. reflexivity.
Qed.

(** One helper call made by a callback. *)
Lemma perform_one call s :
  perform (host := H) createHelpers [call] s
  = (Normal tt, snd (createHelpers call s)).
Proof.
  simpl. unfold bind, ret.
  destruct (createHelpers_run call s) as (es & -> & _). reflexivity.
Qed.

(** X21. A connection accepted by the chat server, on an open
    transport: the event returns normally and its one write is the
    [welcome] carrying the generated identifier, to the accepted
    socket; nobody else is written to. *)
Theorem new_connection_is_welcomed (ws : sock) (now : Z) (rnd36 : string) s :
  readyState s ws = OPEN ->
  let clientId := generateClientId now rnd36 in
  let (completion, s') := dispatch logic (ev_connection ws now rnd36) s in
  completion = Normal tt
  /\ writes (since s s') = [(ws, json_stringify (welcome clientId))].
Proof.
  intros Hopen clientId. rewrite on_connection_calls. cbv zeta. fold clientId.
  cbn [handleConnect Chat.chatAppLogic Chat.timed Chat.handleConnect Chat.returns
         throws helper_calls next_state].
  rewrite perform_one. cbn [createHelpers]. rewrite sendTo_run.
  cbn [snd clients with_state with_effect with_clients readyState].
  rewrite Map_get_set_same, Hopen. cbn [ReadyState_eqb].
  split; auto.
  unfold since. cbn [trace with_effects with_state with_effect with_clients].
  rewrite <- app_assoc, skipn_length_app. reflexivity.
Qed.

(** X22. A chat message end to end: a frame parsed as a
    [sendMessage] whose trimmed text is valid, from a connection that
    is a known user, is written, as one serialized [chatMessage]
    carrying the sender's name, the trimmed text and the sender's
    identifier, to every registered connection whose transport is
    open, the sender included. *)
Theorem chat_message_reaches_every_open_connection (ws : sock)
    (clientId data x : string) (user : User.t) s :
  json_parse data = Some (Value.of_ClientMessage (sendMessage x)) ->
  Dict.get clientId (users (Chat.chat (state s))) = Some user ->
  trim x <> "" ->
  String.length (trim x) <= 500 ->
  let recorded := {| username := User.username user; text := trim x;
                     timestamp := clock (Chat.callbacks (state s));
                     clientId := clientId |} in
  let (completion, s') := dispatch logic (ev_message ws clientId data) s in
  completion = Normal tt
  /\ writes (since s s')
     = deliveries (json_stringify (chatMessage recorded)) (filter (writable s) (clients s))
  /\ serializations (since s s') = 1.
Proof.
  intros Hparse Hget Hne Hlen recorded.
  rewrite (on_message_calls logic ws clientId data _ s Hparse). cbv zeta.
  cbn [handleMessage Chat.chatAppLogic Chat.timed throws helper_calls next_state].
  rewrite handleMessage_typed, Hget, (handleSendMessage_typed trim _ _ _ _ user Hget).
  apply String.eqb_neq in Hne. rewrite Hne.
  assert (L : Nat.ltb 500 (String.length (trim x)) = false)
    by (apply Nat.ltb_ge; lia).
  rewrite L. cbv zeta. fold recorded. cbn [Chat.returns throws helper_calls next_state].
  rewrite perform_one. cbn [createHelpers]. rewrite broadcastAll_run.
  cbn [snd]. split; auto.
  unfold since. cbn [trace with_effects with_state with_effect clients].
  rewrite <- app_assoc, skipn_length_app. simpl.
  rewrite writes_sends, serializations_sends. auto.
Qed.

(** X23. A frame whose [type] is "sendMessage" or "setUsername" but
    that has no payload, from a known user on a registered, open
    connection: [handleMessage] throws, the exception is caught by the
    message listener, and the one write is the error
    "Invalid message format" to the sender; the chat state is
    unchanged. *)
Theorem frame_without_payload_is_invalid_format (ws : sock)
    (clientId data kind : string) (user : User.t) s :
  json_parse data = Some (Value.object [("type", Value.str kind)]) ->
  kind = "sendMessage" \/ kind = "setUsername" ->
  Dict.get clientId (users (Chat.chat (state s))) = Some user ->
  Map.get clientId (clients s) = Some ws ->
  readyState s ws = OPEN ->
  let (completion, s') := dispatch logic (ev_message ws clientId data) s in
  completion = Normal tt
  /\ writes (since s s') = [(ws, json_stringify (error "Invalid message format"))]
  /\ Chat.chat (state s') = Chat.chat (state s).
Proof.
  intros Hparse Hkind Hget Hreg Hopen.
  rewrite (on_message_calls logic ws clientId data _ s Hparse). cbv zeta.
  cbn [handleMessage Chat.chatAppLogic Chat.timed throws helper_calls next_state].
  rewrite (handleMessage_without_payload trim _ _ _ user kind Hget Hkind).
  cbn [Chat.type_error throws helper_calls next_state perform]. unfold ret at 1.
  cbn [snd]. rewrite sendTo_run.
  cbn [clients with_state with_effect readyState]. rewrite Hreg, Hopen.
  cbn [ReadyState_eqb]. split; auto. split; auto.
  unfold since. cbn [trace with_effects with_state with_effect].
  rewrite <- app_assoc, skipn_length_app. reflexivity.
Qed.

End ChatOnServer.

(* ================================================================== *)
(** * The further properties on concrete servers *)

(** A property of the two components of a pair. *)
Lemma let_pair {A B : Type} (p : A * B) (P : A -> B -> Prop) :
  (let (a, b) := p in P a b) -> P (fst p) (snd p).
Proof. now destruct p. Qed.

(** X1 on the registry {A, B, C}. *)
Lemma sendTo_target_witness :
  (Map.get "C" (clients abc) = Some 3 /\ readyState abc 3 = OPEN)
  /\ since abc (snd (sendTo "C" (systemMessage "m") abc))
     = [Stringify (systemMessage "m"); Send 3 "systemMessage m"].
Proof.
  split; [split; reflexivity|].
  pose proof (sendTo_writes_once_to_the_target "C" (systemMessage "m") 3 abc
                eq_refl eq_refl) as H.
  destruct (sendTo "C" (systemMessage "m") abc) as [completion s'].
  apply H.
Defined.

(** X3 on the registry {A, B, C}. *)
Lemma parsed_frame_witness :
  JSON_parse (Host := line_host) "sendMessage hi" = Some (sendMessage "hi")
  /\ invocations
       (since abc (snd (dispatch testAppLogic (ev_message 1 "A" "sendMessage hi") abc)))
     = [onMessage (host := line_host) "A" (sendMessage "hi")].
Proof.
  split; [reflexivity|].
  exact (proj1 (@parsed_frame_reaches_handleMessage_once line_host _ testAppLogic 1 "A"
                  "sendMessage hi" (sendMessage "hi") abc eq_refl)).
Defined.

(** X4 on the chat server: Alice sends an object that has a type and
    no payload. *)
Lemma handler_exception_witness :
  (JSON_parse (Host := ChatDemo.host) "type sendMessage"
   = Some (Value.object [("type", Value.str "sendMessage")])
   /\ throws (handleMessage ChatDemo.logic (state ChatDemo.server) "A"
                (Value.object [("type", Value.str "sendMessage")])) = true
   /\ Map.get "A" (clients ChatDemo.server) = Some 1
   /\ readyState ChatDemo.server 1 = OPEN)
  /\ fst (dispatch ChatDemo.logic (ev_message 1 "A" "type sendMessage") ChatDemo.server)
     = Normal tt.
Proof.
  split; [repeat split|].
  pose proof (handler_exception_is_reported_as_invalid_format ChatDemo.logic 1 "A"
                "type sendMessage" (Value.object [("type", Value.str "sendMessage")])
                ChatDemo.server eq_refl eq_refl eq_refl eq_refl) as H.
  destruct (dispatch ChatDemo.logic (ev_message 1 "A" "type sendMessage") ChatDemo.server)
    as [completion s'].
  apply H.
Defined.

(** X6 on the chat server: the welcome of a third connection. *)
Lemma writes_destination_witness :
  In (3, "welcome client_1700000000000_k3j9x2m1q")
     (writes (since ChatDemo.server
                (snd (dispatch ChatDemo.logic (ev_connection 3 T "0.k3j9x2m1qzw")
                        ChatDemo.server))))
  /\ readyState
       (snd (dispatch ChatDemo.logic (ev_connection 3 T "0.k3j9x2m1qzw") ChatDemo.server))
       3 = OPEN.
Proof.
  assert (H : In (3, "welcome client_1700000000000_k3j9x2m1q")
                (writes (since ChatDemo.server
                           (snd (dispatch ChatDemo.logic
                                   (ev_connection 3 T "0.k3j9x2m1qzw")
                                   ChatDemo.server))))).
  { left. reflexivity. }
  split; [exact H|].
  exact (proj1 (writes_go_to_registered_open_transports ChatDemo.logic
                  (ev_connection 3 T "0.k3j9x2m1qzw") ChatDemo.server _ _ H)).
Defined.

(** X7 on the chat server: Alice leaves, the guest is told, Alice is
    not. *)
Lemma closing_connection_witness :
  (forall other, In (other, 1) (clients ChatDemo.server) -> other = "A")
  /\ ~ In 1 (map fst (writes (since ChatDemo.server
                                (snd (dispatch ChatDemo.logic (ev_close 1 "A")
                                        ChatDemo.server))))).
Proof.
  assert (H : forall other, In (other, 1) (clients ChatDemo.server) -> other = "A").
  { simpl. intros other [[= <-]|[[=]|[]]]. reflexivity. }
  split; [exact H|].
  exact (closing_connection_is_not_notified ChatDemo.logic 1 "A" ChatDemo.server H).
Defined.

(** X10 on the registry {A, B, C}. *)
Lemma broadcastExcept_unregistered_witness :
  Map.get "nobody" (clients abc) = None
  /\ broadcastExcept "nobody" (systemMessage "m") abc
     = broadcastAll (systemMessage "m") abc.
Proof.
  split; [reflexivity|].
  apply broadcastExcept_unregistered_is_broadcastAll. reflexivity.
Defined.

(** X12 in the chat room: Alice says hello, with spaces around. *)
Lemma accepted_message_witness :
  (Dict.get "A" (users ChatDemo.room) = Some ChatDemo.alice
   /\ JSString.trim "  hello " <> ""
   /\ String.length (JSString.trim "  hello ") <= 500)
  /\ helper_calls
       (Chat.handleMessage JSString.trim T ChatDemo.room "A"
          (Value.of_ClientMessage (sendMessage "  hello ")))
     = [BroadcastAll
          (chatMessage {| username := "Alice"; text := "hello";
                          timestamp := T; clientId := "A" |})].
Proof.
  assert (Hne : JSString.trim "  hello " <> "") by discriminate.
  assert (Hlen : String.length (JSString.trim "  hello ") <= 500)
    by (vm_compute; lia).
  split; [repeat split; assumption|].
  rewrite (accepted_message_is_recorded_and_broadcast JSString.trim T ChatDemo.room
             "A" "  hello " ChatDemo.alice eq_refl Hne Hlen).
  reflexivity.
Defined.

(** X13 in the chat room: the guest sends spaces only. *)
Lemma rejected_message_witness :
  (Dict.get "B" (users ChatDemo.room) = Some ChatDemo.guest
   /\ JSString.trim "   " = "")
  /\ Chat.handleMessage JSString.trim T ChatDemo.room "B"
       (Value.of_ClientMessage (sendMessage "   "))
     = Chat.returns ChatDemo.room [SendTo "B" (error "Message cannot be empty")].
Proof.
  split; [split; reflexivity|].
  exact (rejected_message_is_answered_to_sender_only JSString.trim T ChatDemo.room
           "B" "   " ChatDemo.guest eq_refl (or_introl eq_refl)).
Defined.

(** X14 in the chat room: a stranger sends [null]. *)
Lemma unknown_client_witness :
  Dict.get "Z" (users ChatDemo.room) = None
  /\ Chat.handleMessage JSString.trim T ChatDemo.room "Z" Value.null
     = Chat.returns ChatDemo.room [].
Proof.
  split; [reflexivity|].
  exact (proj1 (unknown_client_is_ignored JSString.trim T ChatDemo.room "Z" Value.null
                  eq_refl)).
Defined.

(** X15 in the chat room: Alice, already named, becomes Alicia, and
    nobody is told. *)
Lemma rename_witness :
  Dict.get "A" (users ChatDemo.room) = Some ChatDemo.alice
  /\ helper_calls
       (Chat.handleMessage JSString.trim T ChatDemo.room "A"
          (Value.of_ClientMessage (setUsername " Alicia")))
     = [].
Proof.
  split; [reflexivity|].
  exact (proj2 (proj2 (proj2 (proj2 (proj2
           (setUsername_renames_and_announces_first_name JSString.trim T ChatDemo.room
              "A" " Alicia" ChatDemo.alice eq_refl)))))).
Defined.

(** X18 in the chat room: a third user comes and goes. *)
Lemma connect_disconnect_witness :
  Dict.get "C" (users ChatDemo.room) = None
  /\ next_state
       (Chat.handleDisconnect (next_state (Chat.handleConnect T ChatDemo.room "C")) "C")
     = ChatDemo.room.
Proof.
  split; [reflexivity|].
  exact (proj1 (proj2 (connect_then_disconnect_restores_the_state T ChatDemo.room "C"
                         eq_refl))).
Defined.

(** X21 on the chat server: a third connection. *)
Lemma welcome_witness :
  readyState ChatDemo.server 3 = OPEN
  /\ writes (since ChatDemo.server
               (snd (dispatch ChatDemo.logic (ev_connection 3 T "0.k3j9x2m1qzw")
                       ChatDemo.server)))
     = [(3, "welcome client_1700000000000_k3j9x2m1q")].
Proof.
  split; [reflexivity|].
  pose proof (new_connection_is_welcomed ChatDemo.parse print_line
                (fun rs => ReadyState_eqb rs CONNECTING)
                (fun rs => match rs with CONNECTING | OPEN => CLOSING | _ => rs end)
                JSString.trim ChatDemo.clock 3 T "0.k3j9x2m1qzw" ChatDemo.server
                eq_refl) as H.
  cbv zeta in H. apply let_pair in H. exact (proj2 H).
Defined.

(** X22 on the chat server: Alice says hello. *)
Lemma chat_delivery_witness :
  (JSON_parse (Host := ChatDemo.host) "sendMessage  hello "
   = Some (Value.of_ClientMessage (sendMessage " hello "))
   /\ Dict.get "A" (users (Chat.chat (state ChatDemo.server))) = Some ChatDemo.alice
   /\ JSString.trim " hello " <> ""
   /\ String.length (JSString.trim " hello ") <= 500)
  /\ writes (since ChatDemo.server
               (snd (dispatch ChatDemo.logic (ev_message 1 "A" "sendMessage  hello ")
                       ChatDemo.server)))
     = [(1, "chatMessage hello"); (2, "chatMessage hello")].
Proof.
  assert (Hne : JSString.trim " hello " <> "") by discriminate.
  assert (Hlen : String.length (JSString.trim " hello ") <= 500)
    by (vm_compute; lia).
  split; [repeat split; assumption|].
  pose proof (chat_message_reaches_every_open_connection ChatDemo.parse print_line
                (fun rs => ReadyState_eqb rs CONNECTING)
                (fun rs => match rs with CONNECTING | OPEN => CLOSING | _ => rs end)
                JSString.trim ChatDemo.clock 1 "A" "sendMessage  hello " " hello "
                ChatDemo.alice ChatDemo.server eq_refl eq_refl Hne Hlen) as H.
  cbv zeta in H. apply let_pair in H. exact (proj1 (proj2 H)).
Defined.

(** X23 on the chat server: the guest sends a [setUsername] without
    a payload. *)
Lemma frame_without_payload_witness :
  (JSON_parse (Host := ChatDemo.host) "type setUsername"
   = Some (Value.object [("type", Value.str "setUsername")])
   /\ Dict.get "B" (users (Chat.chat (state ChatDemo.server))) = Some ChatDemo.guest
   /\ Map.get "B" (clients ChatDemo.server) = Some 2
   /\ readyState ChatDemo.server 2 = OPEN)
  /\ writes (since ChatDemo.server
               (snd (dispatch ChatDemo.logic (ev_message 2 "B" "type setUsername")
                       ChatDemo.server)))
     = [(2, "error Invalid message format")].
Proof.
  split; [repeat split|].
  pose proof (frame_without_payload_is_invalid_format ChatDemo.parse print_line
                (fun rs => ReadyState_eqb rs CONNECTING)
                (fun rs => match rs with CONNECTING | OPEN => CLOSING | _ => rs end)
                JSString.trim ChatDemo.clock 2 "B" "type setUsername" "setUsername"
                ChatDemo.guest ChatDemo.server eq_refl (or_intror eq_refl)
                eq_refl eq_refl eq_refl) as H.
  apply let_pair in H. exact (proj1 (proj2 H)).
Defined.

(* ================================================================== *)
(** * Cleanup, unparsable frames, identifiers and shutdown *)

Section CleanupTheorems.

Context {host : Host}.
Context {State : Type}.
Variable appLogic : AppLogic State JSValue.
Implicit Types (s : WSServer State) (es : list Effect).

Local Open Scope server_scope.

(** The close listener is the callback run on the registry from which
    the identifier has been deleted. *)
Lemma on_close_order ws clientId s :
  dispatch appLogic (ev_close ws clientId) s
  = invoke (onDisconnect clientId)
      (fun st => handleDisconnect appLogic st clientId)
      createHelpers
      (with_clients (Map.delete clientId) s).
Proof. reflexivity. Qed.

(** C1, as the code has it.  A close event first removes the
    identifier from the registry and then invokes [handleDisconnect]
    with it, once; an error event does no cleanup at all.  So for a
    connection whose transport fires one close event and any number of
    error events, in any order, the identifier is removed and
    [handleDisconnect] is the only callback invoked, exactly once;
    error events alone leave the server as it was.  The removal comes
    first: the server left is the one [handleDisconnect] leaves when
    it is invoked on the registry without the identifier, so whatever
    [handleDisconnect] sends or broadcasts is written only to open
    connections registered under another identifier. *)
Theorem cleanup_happens_once_on_close (ws : sock) (clientId : string)
    (errors1 errors2 : list Event) s :
  forallb (is_error_of ws clientId) errors1 = true ->
  forallb (is_error_of ws clientId) errors2 = true ->
  run appLogic errors1 s = (Normal tt, s)
  /\ (let s' := snd (run appLogic (errors1 ++ ev_close ws clientId :: errors2) s) in
      clients s' = Map.delete clientId (clients s)
      /\ Map.get clientId (clients s') = None
      /\ invocations (since s s') = [onDisconnect clientId]
      /\ s' = snd (invoke (onDisconnect clientId)
                     (fun st => handleDisconnect appLogic st clientId)
                     createHelpers
                     (with_clients (Map.delete clientId) s))
      /\ (forall ws' d,
            In (ws', d) (writes (since s s')) ->
            readyState s ws' = OPEN
            /\ exists other, other <> clientId /\ In (other, ws') (clients s))).
Proof.
  intros H1 H2. split; [now apply run_errors with ws clientId|].
  rewrite run_app, (run_errors appLogic ws clientId errors1 s H1).
  assert (E : snd (run appLogic (ev_close ws clientId :: errors2) s)
              = snd (dispatch appLogic (ev_close ws clientId) s)).
  { cbn [run]. unfold bind.
    destruct (dispatch appLogic (ev_close ws clientId) s) as [[[]|] s1]; auto.
    now rewrite (run_errors appLogic ws clientId errors2 s1 H2). }
  rewrite E. cbv zeta.
  destruct (dispatch_run appLogic (ev_close ws clientId) s) as (es & st & Es & Hes).
  split; [now rewrite Es|].
  split; [rewrite Es; apply Map_get_delete_same|].
  split; [rewrite Es; now rewrite (since_extension s _ es)|].
  split; [now rewrite on_close_order|].
  intros ws' d Hin. rewrite on_close_order in Hin.
  destruct (invoke_writes (onDisconnect clientId)
              (fun st => handleDisconnect appLogic st clientId)
              (with_clients (Map.delete clientId) s)) as (es' & E' & W).
  rewrite E' in Hin. cbn [snd] in Hin.
  rewrite (since_extension s _ (Invoke (onDisconnect clientId) :: es')) in Hin
    by reflexivity.
  simpl in Hin. apply W in Hin as (Hopen & other & Hreg). simpl in Hopen, Hreg.
  split; auto. exists other.
  apply filter_In in Hreg as (Hreg & Hne). simpl in Hne.
  split; auto. intros ->. now rewrite String.eqb_refl in Hne.
Qed.

(** C4, as the code has it.  A frame on which [JSON.parse] throws:
    the listener returns normally, no callback of the application
    logic is invoked, and the application state, the registry and the
    transports are as before.  The reply is the message of type
    [error] sent with [sendTo] to the identifier of the connection: one
    write to the socket registered under that identifier when its
    transport is open, and no write at all otherwise.  So a connection
    that is registered under its identifier with an open transport
    gets exactly one error reply, nobody else is written to, and it
    stays registered and open. *)
Theorem unparsable_frame_is_answered_with_one_error (ws : sock)
    (clientId data : string) s :
  JSON_parse data = None ->
  let (completion, s') := dispatch appLogic (ev_message ws clientId data) s in
  completion = Normal tt
  /\ invocations (since s s') = []
  /\ state s' = state s
  /\ clients s' = clients s
  /\ readyState s' = readyState s
  /\ message_type (error "Invalid message format") = "error"
  /\ writes (since s s')
     = match Map.get clientId (clients s) with
       | Some registered =>
           if ReadyState_eqb (readyState s registered) OPEN
           then [(registered, JSON_stringify (error "Invalid message format"))]
           else []
       | None => []
       end
  /\ (Map.get clientId (clients s) = Some ws ->
      readyState s ws = OPEN ->
      writes (since s s') = [(ws, JSON_stringify (error "Invalid message format"))]
      /\ Map.get clientId (clients s') = Some ws
      /\ readyState s' ws = OPEN).
Proof.
  intros Hparse. simpl.
  unfold try_catch, bind at 1, parse. rewrite Hparse. unfold throw.
  rewrite sendTo_run, since_with_effects.
  split; [reflexivity|].
  split; [destruct (Map.get clientId (clients s)); auto;
          destruct (ReadyState_eqb _ _); auto|].
  split; [reflexivity|]. split; [reflexivity|]. split; [reflexivity|].
  split; [reflexivity|].
  split.
  - destruct (Map.get clientId (clients s)); auto.
    destruct (ReadyState_eqb _ _); auto.
  - intros Hget Hopen. simpl. rewrite Hget, Hopen. auto.
Qed.

Lemma dispatch_after_close e s :
  keeps_transports e = true ->
  (forall k ws, In (k, ws) (clients s) -> readyState s ws <> OPEN) ->
  exists es,
    trace (snd (dispatch appLogic e s)) = (trace s ++ es)%list
    /\ writes es = []
    /\ forall k ws,
         In (k, ws) (clients (snd (dispatch appLogic e s))) ->
         readyState (snd (dispatch appLogic e s)) ws <> OPEN.
Proof.
  intros He Hs.
  destruct (dispatch_run_writes appLogic e s) as (es & st & -> & W).
  assert (Hsub : forall k ws, In (k, ws) (clients (world_after e s)) ->
                              readyState (world_after e s) ws <> OPEN).
  { destruct e; try discriminate; simpl; auto.
    intros k w Hin. apply filter_In in Hin as (Hin & _). now apply Hs in Hin. }
  exists es. split; [destruct e; reflexivity|]. split; [|exact Hsub].
  destruct (writes es) as [|[ws d] rest] eqn:E; auto.
  destruct (W ws d) as (Hopen & k & Hin); [now left|].
  now apply Hsub in Hin.
Qed.

Lemma run_after_close events s :
  forallb keeps_transports events = true ->
  (forall k ws, In (k, ws) (clients s) -> readyState s ws <> OPEN) ->
  exists es,
    trace (snd (run appLogic events s)) = (trace s ++ es)%list
    /\ writes es = []
    /\ forall k ws,
         In (k, ws) (clients (snd (run appLogic events s))) ->
         readyState (snd (run appLogic events s)) ws <> OPEN.
Proof.
  revert s. induction events as [|e rest IH]; intros s Hev Hs; simpl.
  - exists []. rewrite app_nil_r. auto.
  - simpl in Hev. apply andb_prop in Hev as (He & Hrest).
    destruct (dispatch_after_close e s He Hs) as (es1 & T1 & W1 & Q1).
    unfold bind. destruct (dispatch appLogic e s) as [[[]|] s1]; simpl in *.
    + destruct (IH s1 Hrest Q1) as (es2 & T2 & W2 & Q2).
      exists (es1 ++ es2)%list. rewrite T2, T1, app_assoc, writes_app, W1, W2. auto.
    + exists es1. auto.
Qed.

(** X11. On a host where [ws.close()] never leaves a transport in the
    state [OPEN]: once [close()] has returned, and as long as no
    connection is accepted and no transport changes state outside the
    server, nothing is delivered.  Handling any list of message, close
    and error events then writes nothing, whatever the application
    logic sends or broadcasts, and a helper called afterwards writes
    nothing either. *)
Theorem nothing_is_delivered_after_close (events : list Event) (call : HelperCall) s :
  (forall rs, close_transition rs <> OPEN) ->
  forallb keeps_transports events = true ->
  let closed := snd (close s) in
  let later := snd (run appLogic events closed) in
  writes (since closed later) = []
  /\ writes (since later (snd (createHelpers call later))) = [].
Proof.
  intros Hclose Hev closed later.
  assert (Hreg : forall k ws, In (k, ws) (clients closed) -> readyState closed ws <> OPEN).
  { intros k ws Hin. unfold closed in *. rewrite close_snd in *. simpl in *.
    destruct (close_every_transport (clients s) s) as (s1 & E & Hc & _).
    pose proof (closed_transports (clients s) s Hclose ws) as Hws.
    rewrite E in *. simpl in *. rewrite Hc in Hin. apply Hws.
    apply in_map_iff. exists (k, ws). auto. }
  destruct (run_after_close events closed Hev Hreg) as (es & Ht & Hw & Hq).
  fold later in Ht, Hq. split.
  - now rewrite (since_extension closed later es Ht).
  - destruct (createHelpers_writes call later) as (es' & -> & _ & W).
    cbn [snd]. rewrite since_with_effects.
    destruct (writes es') as [|[ws d] rest] eqn:E; auto.
    destruct (W ws d) as (Hopen & k & Hin); [now left|].
    now apply Hq in Hin.
Qed.

End CleanupTheorems.

(** C3 at an input on which the code fails.  Two connections are
    accepted in the same millisecond and [Math.random()] returns
    [0.123456789] and then the next double, [0.12345678900000001],
    whose strings in base 36 agree on their first nine digits: both get
    the identifier of the first, [clients.set] overwrites the entry,
    and the count is 1 after two [handleConnect] invocations and no
    [handleDisconnect]. *)
Theorem collision_breaks_the_count :
  let s' := after [ev_connection 1 T "0.4fzzzxjylrx"; ev_connection 2 T "0.4fzzzxjyls"] in
  getClientCount s' = 1
  /\ connects (trace s') = 2
  /\ disconnects (trace s') = 0.
Proof. vm_compute. auto. Qed.

(** C8 at an input on which the code fails.  In the same millisecond,
    the random strings of [0.123456789] and of the next double differ,
    and [generateClientId] returns the same identifier for both; two
    sockets accepted with these reads are both open, [handleConnect]
    was told the same identifier twice, and the registry holds the
    second socket only. *)
Theorem same_millisecond_ids_collide :
  "0.4fzzzxjylrx" <> "0.4fzzzxjyls"
  /\ generateClientId T "0.4fzzzxjylrx" = "client_1700000000000_4fzzzxjyl"
  /\ generateClientId T "0.4fzzzxjyls" = "client_1700000000000_4fzzzxjyl"
  /\ (let s' := after [ev_connection 1 T "0.4fzzzxjylrx"; ev_connection 2 T "0.4fzzzxjyls"] in
      readyState s' 1 = OPEN /\ readyState s' 2 = OPEN
      /\ invocations (trace s')
         = [onConnect "client_1700000000000_4fzzzxjyl";
            onConnect "client_1700000000000_4fzzzxjyl"]
      /\ clients s' = [("client_1700000000000_4fzzzxjyl", 2)]).
Proof. split; [discriminate|]. vm_compute. auto 6. Qed.

(** C1 as amended, on the chat server: Alice's connection fires an
    error, a close and another error; the guest is told that she left
    and she is not. *)
Lemma cleanup_once_witness :
  (forallb (is_error_of 1 "A") [ev_error 1 "A"] = true)
  /\ (let s' := snd (run ChatDemo.logic [ev_error 1 "A"; ev_close 1 "A"; ev_error 1 "A"]
                      ChatDemo.server) in
      invocations (since ChatDemo.server s') = [onDisconnect "A"]
      /\ writes (since ChatDemo.server s') = [(2, "userLeft Alice")]).
Proof.
  split; [reflexivity|].
  pose proof (cleanup_happens_once_on_close ChatDemo.logic 1 "A"
                [ev_error 1 "A"] [ev_error 1 "A"] ChatDemo.server eq_refl eq_refl) as H.
  split; [exact (proj1 (proj2 (proj2 (proj2 H))))|reflexivity].
Defined.

(** C4 as stated fails: the frames [42], [null] and [{}] are accepted
    by [JSON.parse] and are not structured messages; each is handed
    to [handleMessage]. *)
Lemma unstructured_frames_reach_the_handler :
  JSON_parse (Host := JsonDemo.host) "42" = Some (Value.number "42")
  /\ invocations
       (since JsonDemo.server
          (snd (dispatch JsonDemo.logic (ev_message 1 "A" "42") JsonDemo.server)))
     = [onMessage (host := JsonDemo.host) "A" (Value.number "42")]
  /\ invocations
       (since JsonDemo.server
          (snd (dispatch JsonDemo.logic (ev_message 1 "A" "null") JsonDemo.server)))
     = [onMessage (host := JsonDemo.host) "A" Value.null]
  /\ invocations
       (since JsonDemo.server
          (snd (dispatch JsonDemo.logic (ev_message 1 "A" "{}") JsonDemo.server)))
     = [onMessage (host := JsonDemo.host) "A" (Value.object [])].
Proof. repeat split. Qed.

(** C4 as amended, on the registry {A, B, C}: a frame the host does
    not parse, on connection A. *)
Lemma unparsable_frame_witness :
  JSON_parse (Host := line_host) "garbage" = None
  /\ writes (since abc (snd (dispatch testAppLogic (ev_message 1 "A" "garbage") abc)))
     = [(1, "error Invalid message format")].
Proof.
  split; [reflexivity|].
  pose proof (unparsable_frame_is_answered_with_one_error testAppLogic 1 "A" "garbage"
                abc eq_refl) as H.
  apply let_pair in H.
  exact (proj1 (proj2 (proj2 (proj2 (proj2 (proj2 (proj2 (proj2 H)))))) eq_refl eq_refl)).
Defined.

(** X11 on the chat server: after [close()], a chat message and a
    disconnection are handled and nothing is written. *)
Lemma after_close_witness :
  ((forall rs, close_transition (Host := ChatDemo.host) rs <> OPEN)
   /\ forallb keeps_transports
        [ev_message 1 "A" "sendMessage hello"; ev_close 2 "B"] = true)
  /\ writes (since (snd (close ChatDemo.server))
               (snd (run ChatDemo.logic
                       [ev_message 1 "A" "sendMessage hello"; ev_close 2 "B"]
                       (snd (close ChatDemo.server)))))
     = [].
Proof.
  assert (H : forall rs, close_transition (Host := ChatDemo.host) rs <> OPEN)
    by (intros []; discriminate).
  split; [split; [exact H | reflexivity]|].
  exact (proj1 (nothing_is_delivered_after_close ChatDemo.logic
                  [ev_message 1 "A" "sendMessage hello"; ev_close 2 "B"]
                  (BroadcastAll (systemMessage "m")) ChatDemo.server H eq_refl)).
Defined.

(** X19 in a room whose history holds 100 messages: one more message
    is recorded and the history still holds 100 valid messages. *)
Lemma history_witness :
  (List.length (messageHistory FullRoom.room) <= 100
   /\ Forall (fun m => text m <> "" /\ String.length (text m) <= 500)
             (messageHistory FullRoom.room))
  /\ (let state' :=
        next_state (Chat.handleMessage JSString.trim T FullRoom.room "A"
                      (Value.of_ClientMessage (sendMessage "again"))) in
      List.length (messageHistory state') <= 100
      /\ Forall (fun m => text m <> "" /\ String.length (text m) <= 500)
                (messageHistory state')).
Proof.
  assert (H1 : List.length (messageHistory FullRoom.room) <= 100).
  { apply Nat.leb_le. reflexivity. }
  assert (H2 : Forall (fun m => text m <> "" /\ String.length (text m) <= 500)
                 (messageHistory FullRoom.room)).
  { apply Forall_forall. intros m Hin. apply repeat_spec in Hin. subst m.
    split; [discriminate | simpl; lia]. }
  split; [split; assumption|].
  pose proof (history_stays_bounded_and_valid JSString.trim T FullRoom.room "A"
                (Value.of_ClientMessage (sendMessage "again")) H1 H2) as H.
  exact (conj (proj1 H) (proj1 (proj2 H))).
Defined.

(** The full history after one more message: still 100 entries, the
    new one last. *)
Example full_history_shifts :
  let state' :=
    next_state (Chat.handleMessage JSString.trim T FullRoom.room "A"
                  (Value.of_ClientMessage (sendMessage "again"))) in
  List.length (messageHistory state') = 100
  /\ List.last (messageHistory state') FullRoom.said
     = {| username := "Alice"; text := "again"; timestamp := T; clientId := "A" |}.
Proof. vm_compute. auto. Qed.
